(** * excel-to-qr-document: a shallow embedding of [qr_code_generator.py]

    The script reads one spreadsheet column, renders every value as a
    captioned QR image on a thread pool, re-orders the images by row
    index and lays them out in a DOCX or a PDF document.

    Conventions of the embedding.
    - Python [int] is [Z] where the value comes from the command line and
      [nat] for lengths, counters and the validated grid width.
    - Python [float] is an exact rational ([Qc]) where it is a
      coordinate or a size in points; the binary64 roundings that the
      script relies on there are checked separately on primitive floats
      ([Module Binary64]). Where rounding decides a pixel count, in the
      scaling of the caption, the float is the binary64 float itself
      ([Module Fallback]).
    - [str] is [string]; a [dict] is an association list in insertion
      order, as a Python 3.7+ dict is.
    - Exceptions, [exit()] and Ctrl+C are the constructors of the result
      type [py].
    - Library calls whose outcome the script cannot know (font loading,
      QR capacity, drawing, saving, the file system, the keyboard) are
      fields of [Render.world] and [Script.env]. *)

From Stdlib Require Import ZArith QArith Qcanon Qround Floats Uint63 SpecFloat.
From Stdlib Require Import DecimalNat DecimalString.
From stdpp Require Import base tactics option numbers list sorting strings.

Set Default Proof Using "Type".
Local Open Scope nat_scope.

(** ** Python values and control flow *)

Module Py.

(** How a piece of Python code ends: normally, with an exception derived
    from [Exception], with [KeyboardInterrupt], or with the [SystemExit]
    that [exit(code)] raises. The last two are not [Exception]s, so
    [except Exception] lets them through. *)
Inductive py (A : Type) : Type :=
| Return (a : A)
| Raise (e : string)
| KeyboardInterrupt
| SystemExit (code : option Z).
Global Arguments Return {A} a.
Global Arguments Raise {A} e.
Global Arguments KeyboardInterrupt {A}.
Global Arguments SystemExit {A} code.

Definition bind {A B} (m : py A) (k : A → py B) : py B :=
  match m with
  | Return a => k a
  | Raise e => Raise e
  | KeyboardInterrupt => KeyboardInterrupt
  | SystemExit c => SystemExit c
  end.

(** [try: m  except Exception as e: handler e] *)
Definition try_except {A} (m : py A) (handler : string → py A) : py A :=
  match m with
  | Raise e => handler e
  | other => other
  end.

(** A step that only can fail: [raises] says whether it does. *)
Definition step (raises : bool) (e : string) : py unit :=
  if raises then Raise e else Return tt.

(** The value of a spreadsheet cell as [openpyxl] hands it over (numbers
    with a fraction and dates are left out: no claim depends on them). *)
Inductive cell_value :=
| CNone
| CStr (s : string)
| CInt (z : Z)
| CBool (b : bool).

(** Truth value of [if cell_value:]. *)
Definition truthy (v : cell_value) : bool :=
  match v with
  | CNone => false
  | CStr s => negb (String.eqb s EmptyString)
  | CInt z => negb (z =? 0)%Z
  | CBool b => b
  end.

(** [int(q)] of a float: truncation towards zero. *)
Definition py_int (q : Qc) : Z :=
  if decide (q < 0)%Qc then (- Qfloor (- q))%Z else Qfloor q.

(** [str(cell_value)] *)
Definition str (v : cell_value) : string :=
  match v with
  | CNone => "None"
  | CStr s => s
  | CInt z => NilZero.string_of_int (Z.to_int z)
  | CBool true => "True"
  | CBool false => "False"
  end.

(** [str(n)] for a row number. *)
Definition str_nat (n : nat) : string := NilZero.string_of_uint (Nat.to_uint n).

(** [s.startswith(p)] and [s.endswith(p)] *)
Definition startswith (s p : string) : bool := String.prefix p s.
Definition endswith (s p : string) : bool :=
  String.eqb (String.substring (String.length s - String.length p) (String.length p) s) p
  && (String.length p <=? String.length s).

(** [os.path.join(a, b)] on POSIX. *)
Definition path_join (a b : string) : string :=
  if startswith b "/" then b
  else if String.eqb a EmptyString || endswith a "/" then a +:+ b
  else a +:+ "/" +:+ b.

(** A [dict] with [nat] keys, in insertion order. [dict_set] is
    [d[k] = v]: an existing key keeps its position. *)
Fixpoint dict_set {V} (d : list (nat * V)) (k : nat) (v : V) : list (nat * V) :=
  match d with
  | [] => [(k, v)]
  | (k', v') :: d => if decide (k' = k) then (k, v) :: d else (k', v') :: dict_set d k v
  end.

Fixpoint dict_get {V} (d : list (nat * V)) (k : nat) : option V :=
  match d with
  | [] => None
  | (k', v') :: d => if decide (k' = k) then Some v' else dict_get d k
  end.

Definition dict_keys {V} (d : list (nat * V)) : list nat := d.*1.

(** [sorted(keys)] on integers. *)
Definition sorted (keys : list nat) : list nat := merge_sort (≤) keys.

End Py.

(** ** Word-processor path: the table-assembly loop (lines 692-704) *)

Module Docx.

(** What the loop appends to the document: [doc.add_table(rows=1,
    cols=wide)] filled with one picture per [(idx, tf)] of
    [enumerate(current_row)], and [doc.add_paragraph()]. *)
Inductive element :=
| Table (cols : nat) (cells : list (nat * string))
| Paragraph.

Definition enumerate (l : list string) : list (nat * string) :=
  imap (λ idx tf, (idx, tf)) l.

(** One iteration of [for temp_file in all_temp_files]; the state is
    [(current_row, doc)]. *)
Definition loop_body (wide : nat) (st : list string * list element)
    (temp_file : string) : list string * list element :=
  let current_row := st.1 ++ [temp_file] in
  if decide (length current_row = wide)
  then ([], st.2 ++ [Table wide (enumerate current_row); Paragraph])
  else (current_row, st.2).

Definition assemble (wide : nat) (all_temp_files : list string)
  : list string * list element :=
  foldl (loop_body wide) ([], []) all_temp_files.

Definition document (wide : nat) (all_temp_files : list string) : list element :=
  (assemble wide all_temp_files).2.

(** The images that end up in the document, table by table. *)
Fixpoint table_rows (doc : list element) : list (list string) :=
  match doc with
  | [] => []
  | Table _ cells :: doc => (snd <$> cells) :: table_rows doc
  | Paragraph :: doc => table_rows doc
  end.

Definition images (doc : list element) : list string := concat (table_rows doc).

(** A table of [wide] columns with one picture in each of the cells
    0 .. wide-1. *)
Definition well_formed_element (wide : nat) (e : element) : Prop :=
  match e with
  | Table cols cells =>
      cols = wide ∧ length cells = wide ∧ cells.*1 = seq 0 wide
  | Paragraph => True
  end.

End Docx.

(** ** PDF path: [generate_pdf] (lines 214-289) *)

Module Pdf.
Local Open Scope Qc_scope.

(** [reportlab.lib.units.inch] and [reportlab.lib.pagesizes.letter]. *)
Definition inch : Qc := Qc_of_Z 72.
Definition letter : Qc * Qc := (Q2Qc (85 # 10) * inch, Qc_of_Z 11 * inch).
Definition LETTER_WIDTH : Qc := letter.1.
Definition LETTER_HEIGHT : Qc := letter.2.

(** The calls made on the canvas [c]. *)
Inductive canvas_op :=
| DrawImage (temp_file : string) (x y width height : Qc)
| ShowPage.

(** The local variables of the placement loop. *)
Record cursor := Cursor {
  x : Qc;
  y : Qc;
  items_in_row : nat;
  page_count : nat
}.

Section generate_pdf.

(** [draw_raises f]: [c.drawImage(f, ...)] raises (unreadable file). The
    loop catches the exception and goes on with the next file. *)
Variable draw_raises : string → bool.
(** [c.save()] raises; the outer handler then returns [False]. *)
Variable save_raises : bool.
Variable wide : nat.

Definition width : Qc := LETTER_WIDTH.
Definition height : Qc := LETTER_HEIGHT.
Definition margin : Qc := inch.
Definition usable_width : Qc := width - 2 * margin.
Definition usable_height : Qc := height - 2 * margin.
Definition qr_width : Qc := usable_width / Qc_of_Z (Z.of_nat wide).
Definition qr_height : Qc := qr_width * Q2Qc (12 # 10).

Definition start : cursor :=
  Cursor margin (height - margin - qr_height) 0 1.

(** One iteration of [for temp_file in qr_files]. *)
Definition place (st : cursor * list canvas_op) (temp_file : string)
  : cursor * list canvas_op :=
  let '(cur, ops) := st in
  if draw_raises temp_file then (cur, ops)
  else
    let ops := ops ++ [DrawImage temp_file (x cur) (y cur) qr_width qr_height] in
    let items := S (items_in_row cur) in
    if decide (wide ≤ items)%nat then
      let y' := y cur - qr_height in
      if decide (y' < margin) then
        (Cursor margin (height - margin - qr_height) 0 (S (page_count cur)),
         ops ++ [ShowPage])
      else (Cursor margin y' 0 (page_count cur), ops)
    else (Cursor (x cur + qr_width) (y cur) items (page_count cur), ops).

(** [generate_pdf]: the canvas calls and the returned flag. Dividing by
    [wide = 0] raises; the outer handler then returns [False] without
    saving. *)
Definition generate_pdf (qr_files : list string)
  : cursor * list canvas_op * bool :=
  match wide with
  | O => (Cursor margin 0 0 1, [], false)
  | S _ => (foldl place (start, []) qr_files, negb save_raises)
  end.

(** Where the grid says row [r] lies: page number and [y] of the row,
    obtained by moving down one cell height per row and turning the page
    when the row would end below the bottom margin. *)
Definition next_row (py : nat * Qc) : nat * Qc :=
  if decide (py.2 - qr_height < margin)
  then (S py.1, height - margin - qr_height)
  else (py.1, py.2 - qr_height).

Definition row_cursor (r : nat) : nat * Qc :=
  Nat.iter r next_row (1%nat, height - margin - qr_height).

Definition column_x (col : nat) : Qc :=
  margin + Qc_of_Z (Z.of_nat col) * qr_width.

(** The canvas calls the grid prescribes for the image of index [i]:
    column [i mod wide] of row [i / wide], followed by a page turn when
    the image completes a row and the row after it would end below the
    bottom margin. *)
Definition grid_ops (i : nat) (temp_file : string) : list canvas_op :=
  let row := row_cursor (i / wide) in
  DrawImage temp_file (column_x (i mod wide)) row.2 qr_width qr_height
  :: (if decide (S i mod wide = 0%nat ∧ row.2 - qr_height < margin)
      then [ShowPage] else []).

(** The loop variables after [n] images have been drawn. *)
Definition cursor_at (n : nat) : cursor :=
  let row := row_cursor (n / wide) in
  Cursor (column_x (n mod wide)) row.2 (n mod wide) row.1.

End generate_pdf.

Definition drawn (ops : list canvas_op) : list string :=
  omap (λ op, match op with DrawImage f _ _ _ _ => Some f | ShowPage => None end) ops.

(** What the canvas calls put on paper: for each image its file, the
    page it is drawn on (the pages are counted from [page], every
    [showPage] call opening the next one) and the lower left corner of
    its cell. *)
Fixpoint placements (page : nat) (ops : list canvas_op)
  : list (string * nat * Qc * Qc) :=
  match ops with
  | [] => []
  | DrawImage temp_file at_x at_y _ _ :: ops =>
      (temp_file, page, at_x, at_y) :: placements page ops
  | ShowPage :: ops => placements (S page) ops
  end.

End Pdf.

(** ** The QR encoder as the script drives it (lines 48-57) *)

Module QR.
Import Py.

Inductive error_correction_level := ERROR_CORRECT_L | ERROR_CORRECT_M
                                  | ERROR_CORRECT_Q | ERROR_CORRECT_H.

(** The state of a [qrcode.QRCode] object. *)
Record QRCode := mkQRCode {
  version : nat;
  error_correction : error_correction_level;
  box_size : nat;
  border : nat;
  data : string
}.

(** Data codewords of versions 1 to 40 at level L (ISO/IEC 18004). *)
Definition data_codewords_L : list nat :=
  [19; 34; 55; 80; 108; 136; 156; 194; 232; 274;
   324; 370; 428; 461; 523; 589; 647; 721; 795; 861;
   932; 1006; 1094; 1174; 1276; 1370; 1468; 1531; 1631; 1735;
   1843; 1955; 2071; 2191; 2306; 2434; 2566; 2702; 2812; 2956].

(** A text held in byte mode: 4 mode bits, a length field of 8 bits up
    to version 9 and of 16 bits from version 10, and 8 bits a character. *)
Definition byte_mode_fits (v : nat) (text : string) : bool :=
  match data_codewords_L !! (v - 1) with
  | Some cw => (4 + (if v <? 10 then 8 else 16) + 8 * String.length text <=? 8 * cw)
               && (1 <=? v)
  | None => false
  end.

Section encoder.

(** [fits v text]: the library can hold [text] in a symbol of version
    [v] at the configured correction level. *)
Variable fits : nat → string → bool.

(** [best_fit(start)]: the smallest version from [start] to 40 that
    holds the data; [DataOverflowError] when there is none. *)
Definition best_fit (start : nat) (text : string) : py nat :=
  match list_find (λ v, fits v text = true) (seq start (41 - start)) with
  | Some (_, v) => Return v
  | None => Raise "DataOverflowError"
  end.

(** [qr.make(fit)]: with [fit=True] the version is chosen by
    [best_fit(start=self.version)]; without it the configured version
    must hold the data. *)
Definition make (fit : bool) (qr : QRCode) : py QRCode :=
  if fit then
    bind (best_fit (version qr) (data qr)) (λ v,
      Return (mkQRCode v (error_correction qr) (box_size qr) (border qr) (data qr)))
  else if fits (version qr) (data qr) then Return qr
  else Raise "DataOverflowError".

(** Lines 49-56: the constructor call, [add_data] and [make(fit=True)]. *)
Definition encode (text : string) : py QRCode :=
  let qr := mkQRCode 1 ERROR_CORRECT_L 10 4 EmptyString in
  let qr := mkQRCode (version qr) (error_correction qr) (box_size qr) (border qr) text in
  make true qr.

End encoder.

End QR.

(** ** The renderer: [generate_single_qr] (lines 39-173) *)

Module Render.
Import Py.

(** What the renderer observes of its surroundings: the platform, the
    font files, and which library calls fail. *)
Record world := World {
  platform_system : string;             (* [platform.system()] *)
  path_exists : string → bool;          (* [os.path.exists] *)
  truetype_raises : string → Z → bool;  (* [ImageFont.truetype(path, size)] raises *)
  qr_fits : nat → string → bool;        (* the encoder holds the text at a version *)
  caption_raises : option string → string → bool;
                                        (* drawing the caption with the font
                                           found, or with the default font, raises;
                                           with the default font also when [resize]
                                           refuses the scaled size *)
  save_raises : string → bool           (* pasting the symbol or saving raises *)
}.

Definition base_width : Z := 1000.
Definition base_height : Z := py_int (Qc_of_Z base_width * Q2Qc (12 # 10)).

(** Line 72: [min(60, int(base_width / max(len(text), 10)))]. *)
Definition font_size (text : string) : Z :=
  Z.min 60 (py_int (Qc_of_Z base_width
                    / Qc_of_Z (Z.max (Z.of_nat (String.length text)) 10))).

(** Line 73: [int(base_height * 0.2)]. *)
Definition text_height : Z := py_int (Qc_of_Z base_height * Q2Qc (2 # 10)).

Definition system_fonts (system : string) : list string :=
  if String.eqb system "Windows" then
    ["C:/Windows/Fonts/arial.ttf"; "C:/Windows/Fonts/segoeui.ttf";
     "C:/Windows/Fonts/calibri.ttf"; "C:/Windows/Fonts/tahoma.ttf"]
  else if String.eqb system "Darwin" then
    ["/System/Library/Fonts/Helvetica.ttc"; "/Library/Fonts/Arial.ttf";
     "/System/Library/Fonts/SFNSText.ttf";
     "/System/Library/Fonts/Supplemental/Arial.ttf"]
  else
    ["/usr/share/fonts/truetype/dejavu/DejaVuSans.ttf";
     "/usr/share/fonts/TTF/arial.ttf";
     "/usr/share/fonts/liberation/LiberationSans-Regular.ttf";
     "/usr/share/fonts/truetype/liberation/LiberationSans-Regular.ttf";
     "/usr/share/fonts/ubuntu/Ubuntu-R.ttf"].

(** Lines 103-110: the first candidate that exists and loads; a failing
    [truetype] is caught and the next candidate is tried. *)
Fixpoint find_font (w : world) (size : Z) (paths : list string) : option string :=
  match paths with
  | [] => None
  | font_path :: paths =>
      if path_exists w font_path then
        if truetype_raises w font_path size then find_font w size paths
        else Some font_path
      else find_font w size paths
  end.

(** The arguments of one unit of work. The tuple also carries
    [qr_width], [img_width] and [img_height], which the function never
    reads. *)
Record job := Job {
  row_num : nat;
  cell : cell_value;
  tmpdirname : string;
  args_verbose : bool
}.

Definition temp_file_of (j : job) : string :=
  path_join (tmpdirname j) ("temp_qr_" +:+ str_nat (row_num j) +:+ ".png").

(** The body of the [try] (lines 48-168): encode the symbol, draw the
    caption with the font found or with the default font, paste the
    symbol and save the image. *)
Definition render_body (w : world) (j : job) : py (nat * option string) :=
  let text := str (cell j) in
  bind (QR.encode (qr_fits w) text) (λ _,
  let font := find_font w (font_size text) (system_fonts (platform_system w)) in
  bind (step (caption_raises w font text) "caption") (λ _,
  let temp_file := temp_file_of j in
  bind (step (save_raises w temp_file) "save") (λ _,
  Return (row_num j, Some temp_file)))).

(** [generate_single_qr]: lines 170-173 turn every exception of the body
    into the result [(row_num, None)]. *)
Definition generate_single_qr (w : world) (j : job) : py (nat * option string) :=
  try_except (render_body w j) (λ _, Return (row_num j, None)).

(** The row renders: the body ends normally. *)
Definition renders (w : world) (j : job) : bool :=
  match render_body w j with
  | Return _ => true
  | _ => false
  end.

End Render.

(** ** The concurrent fan-out and the join (lines 666-692, 731-757) *)

Module FanOut.
Import Py Render.

(** The variables the collection loop updates: the [results] dict, the
    number of [progress.advance(task)] calls, and the number of error
    lines printed by the loop's own handler. *)
Record collector := Collector {
  results : list (nat * string);
  advanced : nat;
  reported : nat
}.

(** Truth value of [if temp_file:]. *)
Definition truthy_file (temp_file : option string) : bool :=
  match temp_file with
  | None => false
  | Some f => negb (String.eqb f EmptyString)
  end.

(** One iteration of [for future in as_completed(future_to_row)];
    [outcome] is what [future.result()] does. The last case is never
    reached: [generate_single_qr] returns or raises an [Exception]. *)
Definition collect (verbose : bool) (st : collector)
    (outcome : py (nat * option string)) : collector :=
  match outcome with
  | Return (row_num, Some temp_file) =>
      if truthy_file (Some temp_file) then
        Collector (dict_set (results st) row_num temp_file)
                  (if verbose then advanced st else S (advanced st))
                  (reported st)
      else st
  | Return (row_num, None) => st
  | Raise _ => Collector (results st) (advanced st) (S (reported st))
  | KeyboardInterrupt | SystemExit _ => st
  end.

Definition process_args (tmpdirname : string) (verbose : bool)
    (valid_rows : list (nat * cell_value)) : list job :=
  (λ r, Job r.1 r.2 tmpdirname verbose) <$> valid_rows.

(** The loop over the futures in the order [completed] in which the
    workers finish, any permutation of the submitted jobs. *)
Definition fan_out (w : world) (verbose : bool) (completed : list job) : collector :=
  foldl (collect verbose) (Collector [] 0 0) (generate_single_qr w <$> completed).

(** Lines 692 and 757:
    [[results[row_num] for row_num in sorted(results.keys())]]. *)
Definition all_temp_files (results : list (nat * string)) : list string :=
  omap (dict_get results) (sorted (dict_keys results)).

Definition successes (w : world) (jobs : list job) : list job :=
  filter (λ j, renders w j = true) jobs.

End FanOut.

(** ** Spreadsheet ingestion (lines 460, 533-543) *)

Module Ingest.
Import Py.

(** The active worksheet as the script reads it: [max_row],
    [max_column] and [cell(row, column).value], rows and columns counted
    from 1. *)
Record worksheet := Worksheet {
  max_row : nat;
  max_column : nat;
  cell_at : nat → nat → cell_value
}.

Definition start_row (has_header : bool) : nat := if has_header then 2 else 1.

(** [range(a, b)] *)
Definition range (a b : nat) : list nat := seq a (b - a).

(** Lines 534-538: the loop that collects [valid_rows]. *)
Definition scan_step (ws : worksheet) (selected_column start : nat)
    (valid_rows : list (nat * cell_value)) (row : nat) : list (nat * cell_value) :=
  let cell_value := cell_at ws row selected_column in
  if truthy cell_value then valid_rows ++ [(row - start, cell_value)]
  else valid_rows.

Definition scan (ws : worksheet) (selected_column : nat) (has_header : bool)
  : list (nat * cell_value) :=
  let start := start_row has_header in
  foldl (scan_step ws selected_column start) [] (range start (max_row ws + 1)).

(** A cell is empty when it holds nothing or the empty text. *)
Definition empty_cell (v : cell_value) : bool :=
  match v with
  | CNone => true
  | CStr s => String.eqb s EmptyString
  | _ => false
  end.

(** A sheet given by the values of its first column, top to bottom. *)
Definition column_sheet (values : list cell_value) : worksheet :=
  Worksheet (length values) 1
    (λ row col, if decide (col = 1 ∧ 1 ≤ row) then default CNone (values !! (row - 1))
                else CNone).

End Ingest.

(** ** The script from argument handling to exit (lines 404-788) *)

Module Script.
Import Py Ingest.

Inductive output_type := docx | pdf.

(** [args] after [parser.parse_args()]; [argparse] admits only 1..10 for
    [--wide] and only the two types. *)
Record arguments := Arguments {
  wide : option nat;
  type : option output_type;
  verbose : bool;
  input : option string;
  column : option Z;
  header : bool
}.

(** What the user does at a prompt: type a line or press Ctrl+C. The
    end of the list is the end of standard input. *)
Inductive key := Line (s : string) | CtrlC.

(** The surroundings of a run. *)
Record env := Env {
  int_of_str : string → option Z;        (* [int(s)]; [None] is [ValueError] *)
  path_exists : string → bool;           (* [os.path.exists] *)
  listdir : list string;                 (* [os.listdir()] *)
  load_workbook : string → option worksheet; (* [None]: the call raises *)
  makedirs_raises : bool;
  stale_outputs : list nat;              (* per old output entry: failed deletions *)
  mkdtemp : option string;               (* [None]: the call raises *)
  renderer : Render.world;
  as_completed : list Render.job → list Render.job;
  draw_raises : string → bool;
  save_raises : bool                     (* [doc.save] or [c.save] raises *)
}.

Inductive message :=
| Error (text : string)
| Warning (text : string)
| Success
| Interrupted
| Completed.

Inductive product :=
| DocxFile (doc : list Docx.element)
| PdfFile (ops : list Pdf.canvas_op).

(** The state a run threads through: the pending keyboard input, what
    was printed of errors and outcomes, and the file written. *)
Record state := State {
  keys : list key;
  console : list message;
  written : option product
}.

Definition M (A : Type) : Type := state → py A * state.

Definition ret {A} (a : A) : M A := λ st, (Return a, st).
Definition bindM {A B} (m : M A) (k : A → M B) : M B :=
  λ st, match m st with
        | (Return a, st) => k a st
        | (Raise e, st) => (Raise e, st)
        | (KeyboardInterrupt, st) => (KeyboardInterrupt, st)
        | (SystemExit c, st) => (SystemExit c, st)
        end.
Global Instance M_ret : MRet M := @ret.
Global Instance M_bind : MBind M := λ A B k m, bindM m k.

Definition print (msg : message) : M unit :=
  λ st, (Return tt, State (keys st) (console st ++ [msg]) (written st)).
Definition raise {A} (e : string) : M A := λ st, (Raise e, st).
(** [exit(code)]; [exit()] is [exit(None)]. *)
Definition exit {A} (code : option Z) : M A := λ st, (SystemExit code, st).
Definition write (p : product) : M unit :=
  λ st, (Return tt, State (keys st) (console st) (Some p)).

Fixpoint print_all (msgs : list message) : M unit :=
  match msgs with
  | [] => ret tt
  | msg :: msgs => print msg;; print_all msgs
  end.

(** [signal_handler]: Ctrl+C prints the notice and calls [exit(0)]. *)
Definition signal_handler {A} : M A := print Interrupted;; exit (Some 0%Z).

(** [console.input(...)] *)
Definition console_input : M string :=
  λ st, match keys st with
        | [] => (Raise "EOFError", st)
        | Line s :: rest => (Return s, State rest (console st) (written st))
        | CtrlC :: rest => signal_handler (State rest (console st) (written st))
        end.

(** The prompt loops [while True: ... break]: ask until [accept] takes
    the answer. *)
Fixpoint ask_from {A} (accept : string → option A) (pending : list key) (st : state)
  : py A * state :=
  match pending with
  | [] => (Raise "EOFError", State [] (console st) (written st))
  | Line s :: rest =>
      match accept s with
      | Some a => (Return a, State rest (console st) (written st))
      | None => ask_from accept rest st
      end
  | CtrlC :: rest => signal_handler (State rest (console st) (written st))
  end.
Definition ask {A} (accept : string → option A) : M A :=
  λ st, ask_from accept (keys st) st.

Definition truthy_str (s : option string) : bool :=
  match s with Some s => negb (String.eqb s EmptyString) | None => false end.
Definition truthy_int (z : option Z) : bool :=
  match z with Some z => negb (z =? 0)%Z | None => false end.

Section run.
Variable a : arguments.
Variable e : env.

(** Lines 419-448. *)
Definition select_file : M string :=
  if truthy_str (input a) then
    let f := default EmptyString (input a) in
    if negb (path_exists e f) || negb (endswith f ".xlsx") then
      print (Error ("Invalid Excel file: " +:+ f));; exit None
    else ret f
  else
    let xlsx_files :=
      filter (λ f, endswith f ".xlsx" && negb (startswith f "~$") = true) (listdir e) in
    match xlsx_files with
    | [] => print (Error "No Excel files found in the current directory.");; exit None
    | [f] => ret f
    | _ => ask (λ s, choice ← int_of_str e s;
                     if decide (0 ≤ choice - 1)%Z
                     then xlsx_files !! Z.to_nat (choice - 1) else None)
    end.

(** Lines 451-459. *)
Definition ask_header : M bool :=
  if negb (header a) && negb (truthy_int (column a)) then
    ask (λ s, if String.eqb s "y" || String.eqb s "Y" then Some true
              else if String.eqb s "n" || String.eqb s "N" then Some false
              else None)
  else ret (header a).

(** Lines 468-530. The preview printed before the prompt indexes the
    header row, which is missing in a sheet without rows. *)
Definition select_column (ws : worksheet) (has_header : bool) : M nat :=
  let max_col := Z.of_nat (max_column ws) in
  if truthy_int (column a) then
    let c := default 0%Z (column a) in
    if decide (1 ≤ c ≤ max_col)%Z then ret (Z.to_nat c)
    else print (Error "Column number must be between 1 and max_col");; exit None
  else
    if has_header && (max_row ws =? 0) && (1 <=? max_column ws) then raise "IndexError"
    else ask (λ s, c ← int_of_str e s;
                   if decide (1 ≤ c ≤ max_col)%Z then Some (Z.to_nat c) else None).

(** Lines 533-543. *)
Definition collect_valid_rows (ws : worksheet) (selected_column : nat) (has_header : bool)
  : M (list (nat * cell_value)) :=
  let valid_rows := scan ws selected_column has_header in
  if decide (length valid_rows = 0) then
    print (Error "No data found in selected column");; exit None
  else ret valid_rows.

(** Lines 546-575. *)
Definition select_wide : M nat :=
  match wide a with
  | Some w => ret w
  | None => ask (λ s, w ← int_of_str e s;
                      if decide (1 ≤ w ≤ 10)%Z then Some (Z.to_nat w) else None)
  end.

Definition select_type : M output_type :=
  match type a with
  | Some t => ret t
  | None => ask (λ s, c ← int_of_str e s;
                      if decide (c = 1)%Z then Some docx
                      else if decide (c = 2)%Z then Some pdf else None)
  end.

(** Lines 603-623: delete one old entry, asking again after each failed
    attempt. *)
Fixpoint unlink_retry (failures : nat) : M unit :=
  match failures with
  | O => ret tt
  | S failures =>
      print (Error "Cannot delete");; _ ← console_input; unlink_retry failures
  end.

Fixpoint clear_output (entries : list nat) : M unit :=
  match entries with
  | [] => ret tt
  | failures :: entries => unlink_retry failures;; clear_output entries
  end.

Definition prepare_output : M unit :=
  if makedirs_raises e then raise "OSError" else clear_output (stale_outputs e).

(** [try: m  except Exception as e: handler e] on a run. *)
Definition try_exceptM {A} (m : M A) (handler : string → M A) : M A :=
  λ st, match m st with
        | (Raise e, st) => handler e st
        | other => other
        end.

(** The join: lines 666-692 and 731-757. *)
Definition rendered (tmpdirname : string) (valid_rows : list (nat * cell_value))
  : list string :=
  let jobs := FanOut.process_args tmpdirname (verbose a) valid_rows in
  FanOut.all_temp_files
    (FanOut.results (FanOut.fan_out (renderer e) (verbose a) (as_completed e jobs))).

(** Line 172: in a verbose run a worker whose row fails prints an error
    line, the workers in the order in which they finish. *)
Definition row_errors (tmpdirname : string) (valid_rows : list (nat * cell_value))
  : list message :=
  if verbose a then
    omap (λ j, if Render.renders (renderer e) j then None
               else Some (Error ("Error processing row "
                                 +:+ str_nat (Render.row_num j + 1))))
         (as_completed e (FanOut.process_args tmpdirname (verbose a) valid_rows))
  else [].

(** Lines 274-277 and 286-289: what [generate_pdf] prints in a verbose
    run, a warning for each image that does not draw and the error that
    makes it return [False]. *)
Definition pdf_notices (w : nat) (qr_files : list string) : list message :=
  if verbose a then
    match w with
    | O => []
    | S _ => (λ f, Warning ("Failed to add image " +:+ f))
             <$> filter (λ f, draw_raises e f = true) qr_files
    end
    ++ (if (Pdf.generate_pdf (draw_raises e) (save_raises e) w qr_files).2 then []
        else [Error "Error in PDF generation"])
  else [].

(** Lines 631-714. The cell width of line 644 divides by the grid
    width, before the inner [try]. *)
Definition make_docx (tmpdirname : string) (valid_rows : list (nat * cell_value))
    (w : nat) : M unit :=
  match w with
  | O => raise "ZeroDivisionError"
  | S _ =>
      try_exceptM
        (print_all (row_errors tmpdirname valid_rows);;
         let doc := Docx.document w (rendered tmpdirname valid_rows) in
         if save_raises e then raise "doc.save"
         else write (DocxFile doc);; print Success)
        (λ err, print (Error err);; raise err)
  end.

(** Lines 716-776. *)
Definition make_pdf (tmpdirname : string) (valid_rows : list (nat * cell_value))
    (w : nat) : M unit :=
  try_exceptM
    (print_all (row_errors tmpdirname valid_rows);;
     let qr_files := rendered tmpdirname valid_rows in
     let out := Pdf.generate_pdf (draw_raises e) (save_raises e) w qr_files in
     print_all (pdf_notices w qr_files);;
     if out.2 then write (PdfFile out.1.2);; print Success
     else print (Error "Failed to generate PDF"))
    (λ err, print (Error err);; raise err).

(** Lines 629-779: the [try] inside the temporary directory; its handler
    prints the error and goes on. *)
Definition make (tmpdirname : string) (valid_rows : list (nat * cell_value))
    (w : nat) (t : output_type) : M unit :=
  try_exceptM
    (match t with
     | docx => make_docx tmpdirname valid_rows w
     | pdf => make_pdf tmpdirname valid_rows w
     end)
    (λ err, print (Error err)).

(** Lines 626-779: the work inside the temporary directory. *)
Definition generate (valid_rows : list (nat * cell_value)) (w : nat) (t : output_type)
  : M unit :=
  match mkdtemp e with
  | None => raise "OSError"
  | Some tmpdirname => make tmpdirname valid_rows w t
  end.

(** The body of the outer [try] (lines 405-779). *)
Definition body : M unit :=
  selected_file ← select_file;
  has_header ← ask_header;
  match load_workbook e selected_file with
  | None => raise "InvalidFileException"
  | Some src_ws =>
      selected_column ← select_column src_ws has_header;
      valid_rows ← collect_valid_rows src_ws selected_column has_header;
      w ← select_wide;
      t ← select_type;
      prepare_output;;
      generate valid_rows w t
  end.

(** Lines 781-788: the handlers of the outer [try] and its [finally]. *)
Definition main : M unit :=
  λ st,
    let '(r, st) :=
      match body st with
      | (KeyboardInterrupt, st) => (print Interrupted;; exit (Some 0%Z)) st
      | (Raise err, st) => (print (Error err);; exit (Some 1%Z)) st
      | other => other
      end in
    (r, (print Completed st).2).

End run.

(** The exit status of the process. *)
Definition exit_status (r : py unit) : Z :=
  match r with
  | Return _ => 0
  | SystemExit None => 0
  | SystemExit (Some code) => code
  | Raise _ => 1
  | KeyboardInterrupt => 130
  end.

(** The script from line 404 on, for the namespace [a] that
    [parser.parse_args()] returned. *)
Definition run (a : arguments) (e : env) (typed : list key) : Z * list message :=
  let '(r, st) := main a e (State typed [] None) in
  (exit_status r, console st).


End Script.

(** ** The same arithmetic on binary64 floats *)

Module Binary64.
Local Open Scope float_scope.

(** [float(n)] and [int(f)]. *)
Definition of_nat (n : nat) : float := PrimFloat.of_uint63 (Uint63.of_Z (Z.of_nat n)).
Definition int_of_float (f : float) : Z :=
  match Prim2SF f with
  | S754_finite s m e =>
      let z := if (0 <=? e)%Z then (Z.pos m * 2 ^ e)%Z else (Z.pos m / 2 ^ (- e))%Z in
      if s then (- z)%Z else z
  | _ => 0%Z
  end.

(** [float(z)] for an integer below 2^53 in absolute value, where the
    conversion is exact. *)
Definition of_Z (z : Z) : float :=
  if (z <? 0)%Z then - PrimFloat.of_uint63 (Uint63.of_Z (- z))
  else PrimFloat.of_uint63 (Uint63.of_Z z).

(** A finite float that is not negative, in units of 2^-1074, the
    smallest positive double. *)
Definition scaled (f : float) : option Z :=
  match Prim2SF f with
  | S754_zero _ => Some 0%Z
  | S754_finite false m e => Some (Z.pos m * 2 ^ (e + 1074))%Z
  | _ => None
  end.

(** The doubles nearest to 1.2 and to 0.2. *)
Definition one_point_two : float := 0x1.3333333333333p+0.
Definition zero_point_two : float := 0x1.999999999999ap-3.

Definition inch : float := 72.
Definition width : float := 8.5 * inch.
Definition height : float := 11 * inch.
Definition qr_width (wide : nat) : float := (width - 2 * inch) / of_nat wide.
Definition qr_height (wide : nat) : float := qr_width wide * one_point_two.

(** After each of the first [n] completed rows: does [y < margin] turn
    the page? *)
Fixpoint turns (h margin top y : float) (n : nat) : list bool :=
  match n with
  | O => []
  | S n =>
      let y' := y - h in
      if y' <? margin then true :: turns h margin top top n
      else false :: turns h margin top y' n
  end.

Definition page_turns (wide n : nat) : list bool :=
  let top := height - inch - qr_height wide in
  turns (qr_height wide) inch top top n.

(** The same decisions in the exact model. *)
Definition exact_page_turns (wide n : nat) : list bool :=
  (λ r, bool_decide ((Pdf.row_cursor wide r).2 - Pdf.qr_height wide < Pdf.margin)%Qc)
  <$> seq 0 n.

Definition font_size (len : nat) : Z :=
  Z.min 60 (int_of_float (1000 / of_nat (len `max` 10))).

End Binary64.

(** ** Concrete surroundings used by the examples *)

Module Sample.
Import Py.

(** A Linux machine without any of the candidate fonts, an encoder that
    stores text in byte mode, and no failing library call. *)
Definition linux : Render.world :=
  Render.World "Linux" (λ _, false) (λ _ _, false) QR.byte_mode_fits
               (λ _ _, false) (λ _, false).

(** Seven one-letter rows, as in the end-to-end scenarios. *)
Definition seven_rows : list cell_value :=
  [CStr "a"; CStr "b"; CStr "c"; CStr "d"; CStr "e"; CStr "f"; CStr "g"].

(** A text of 3000 characters: more than the 2953 bytes of the largest
    symbol at level L. *)
Definition too_long : string :=
  Nat.iter 3000 (λ s, "x" +:+ s) EmptyString.



(** Eighteen lower-case letters, which need byte mode: one more than
    version 1 holds at level L. *)
Definition eighteen : string := "abcdefghijklmnopqr".

(** A directory with [data.xlsx] only, whose first column is [values];
    [int] reads the digits 1 to 9; workers finish in reverse order. *)
Definition office (values : list cell_value) : Script.env :=
  Script.Env
    (λ s, if String.eqb s "1" then Some 1%Z
          else if String.eqb s "2" then Some 2%Z
          else if String.eqb s "3" then Some 3%Z else None)
    (λ f, String.eqb f "data.xlsx")
    ["data.xlsx"]
    (λ f, if String.eqb f "data.xlsx" then Some (Ingest.column_sheet values) else None)
    false [] (Some "/tmp/qr") linux (@reverse _) (λ _, false) false.

Definition cli (input : option string) (t : Script.output_type) : Script.arguments :=
  Script.Arguments (Some 3) (Some t) false input (Some 1%Z) false.

End Sample.

(** ** The built-in font: scaling and centring the caption (lines 119-154) *)

Module Fallback.
Import Py Render Binary64.
Local Open Scope float_scope.

(** [min(a, b)] *)
Definition py_min (a b : float) : float := if b <? a then b else a.

(** The double nearest to 0.8. *)
Definition zero_point_eight : float := 0x1.999999999999ap-1.

(** Lines 136-139. [text_width] and [text_actual_height] come from the
    bounding box of the caption in the built-in font; a zero divisor
    raises. *)
Definition scale_factor (text_width text_actual_height : Z) : py float :=
  if decide (text_width = 0%Z) then Raise "ZeroDivisionError"
  else if decide (text_actual_height = 0%Z) then Raise "ZeroDivisionError"
  else Return (py_min ((of_Z base_width * zero_point_eight) / of_Z text_width)
                      ((of_Z text_height * zero_point_eight)
                       / of_Z text_actual_height)).

(** Size and position of the caption image that is pasted. *)
Record caption := Caption {
  scaled_width : Z;
  scaled_height : Z;
  text_x : Z;
  text_y : Z
}.

(** Lines 141-153. [resize] refuses a size with a side of 0 or less:
    the exception leaves the body of the renderer and the row is lost. *)
Definition place_caption (text_width text_actual_height : Z) : py caption :=
  bind (scale_factor text_width text_actual_height) (λ scale_factor,
    let scaled_width := int_of_float (of_Z text_width * scale_factor) in
    let scaled_height := int_of_float (of_Z text_actual_height * scale_factor) in
    bind (step ((scaled_width <=? 0)%Z || (scaled_height <=? 0)%Z) "ValueError") (λ _,
    Return (Caption scaled_width scaled_height
                    ((base_width - scaled_width) / 2)
                    ((text_height - scaled_height) / 2)))).

(** What is checked box by box, on the doubles themselves: the scaled
    width lies in [1, 801), and the scaled height in [1, 193) when the
    box is at most 800 times as wide as high, in [0, 1) when it is
    wider. *)
Definition checked (text_width text_actual_height : Z) : bool :=
  match scale_factor text_width text_actual_height with
  | Return scale_factor =>
      let scaled_width := of_Z text_width * scale_factor in
      let scaled_height := of_Z text_actual_height * scale_factor in
      (1 <=? scaled_width) && (scaled_width <? 801)
      && (if (text_width <=? 800 * text_actual_height)%Z
          then (1 <=? scaled_height) && (scaled_height <? 193)
          else (0 <=? scaled_height) && (scaled_height <? 1))
  | _ => false
  end.

(** [all(P(z) for z in range(start, start + n))] *)
Fixpoint all_from (n : nat) (start : Z) (P : Z → bool) : bool :=
  match n with
  | O => true
  | S n => P start && all_from n (start + 1)%Z P
  end.

End Fallback.

(** ** [create_page] (lines 175-212) *)

Module Page.
Import Py.

(** [current_page.paste(qr_img, (x, y))] for the image read from
    [temp_file]. *)
Record paste := Paste {
  source : string;
  at_x : Z;
  at_y : Z
}.

Section create_page.

Variable path_exists : string → bool.   (* [os.path.exists] *)
Variable open_raises : string → bool.   (* [Image.open] or [resize] raises *)
Variables hi_res_margin hi_res_qr wide : Z.

(** The loop variables [x], [y], [items_in_row] and the pastes made. *)
Record easel := Easel {
  x : Z;
  y : Z;
  items_in_row : Z;
  pasted : list paste
}.

(** One iteration of [for temp_file in qr_files]. *)
Definition paste_one (st : easel) (temp_file : string) : py easel :=
  if negb (path_exists temp_file) then Return st
  else if open_raises temp_file then Raise "UnidentifiedImageError"
  else
    let pasted := pasted st ++ [Paste temp_file (x st) (y st)] in
    let items := (items_in_row st + 1)%Z in
    if decide (wide ≤ items)%Z
    then Return (Easel hi_res_margin (y st + hi_res_qr) 0 pasted)
    else Return (Easel (x st + hi_res_qr) (y st) items pasted).

Fixpoint paste_all (st : easel) (qr_files : list string) : py easel :=
  match qr_files with
  | [] => Return st
  | temp_file :: qr_files => bind (paste_one st temp_file) (λ st, paste_all st qr_files)
  end.

(** [create_page]: the page number with the pastes of the page, or with
    [None] when anything raised. *)
Definition create_page (qr_files : list string) (page_num : nat)
  : py (nat * option (list paste)) :=
  try_except
    (bind (paste_all (Easel hi_res_margin hi_res_margin 0 []) qr_files) (λ st,
       Return (page_num, Some (pasted st))))
    (λ _, Return (page_num, None)).

(** Where the grid puts the image of index [k]. *)
Definition tile (k : nat) (temp_file : string) : paste :=
  Paste temp_file
        (hi_res_margin + (Z.of_nat k mod wide) * hi_res_qr)
        (hi_res_margin + (Z.of_nat k / wide) * hi_res_qr).

End create_page.

End Page.

(** ** Rows on a PDF page *)

Module PdfPages.
Import Pdf.
Local Open Scope Qc_scope.

(** The number of rows of cells that fit between the top and the bottom
    margin. *)
Definition rows_per_page (wide : nat) : nat :=
  Z.to_nat (Qfloor (usable_height / qr_height wide)).

End PdfPages.

(** ** What a run may do to its state *)

Module Outcome.
Import Py Script.


(** A file was written exactly when the success message was printed. *)
Definition consistent (st : state) : Prop :=
  is_Some (written st) ↔ Success ∈ console st.



(** The keys a prompt loop reads and throws away: lines it does not
    accept. *)
Definition rejected_by {A} (accept : string → option A) (k : key) : Prop :=
  ∃ s, k = Line s ∧ accept s = None.

End Outcome.

(* ================================================================== *)
(** * Theorems *)
(* ================================================================== *)

(** ** Quotient and remainder of a running count *)

Module CountFacts.

(** [N = wide * rows + pending] with [pending < wide] fixes both the
    quotient and the remainder. *)
Lemma div_mod_of_split N wide rows pending :
  N = wide * rows + pending → pending < wide →
  rows = N / wide ∧ pending = N mod wide.
Proof.
  intros -> Hlt. split.
  - apply Nat.div_unique with pending; [done|lia].
  - apply Nat.mod_unique with rows; [done|lia].
Qed.

(** Counting one more item either completes a row or extends it. *)
Lemma succ_div_mod n wide :
  0 < wide →
  if decide (wide ≤ S (n mod wide))
  then S n mod wide = 0 ∧ S n / wide = S (n / wide)
  else S n mod wide = S (n mod wide) ∧ S n / wide = n / wide.
Proof.
  intros Hw.
  pose proof (Nat.div_mod_eq n wide) as Hn.
  pose proof (Nat.mod_upper_bound n wide ltac:(lia)) as Hr.
  case_decide as Hfull.
  - destruct (div_mod_of_split (S n) wide (S (n / wide)) 0); [lia|lia|].
    by split.
  - destruct (div_mod_of_split (S n) wide (n / wide) (S (n mod wide))); [lia|lia|].
    by split.
Qed.

(** The rows that hold an image are the first [ceil(N / wide)] ones. *)
Lemma rows_used N wide r :
  0 < wide →
  (∃ i, i < N ∧ i / wide = r) ↔ r < (N + wide - 1) / wide.
Proof.
  intros Hw. split.
  - intros (i & Hi & <-).
    replace (N + wide - 1) with ((N - 1) + 1 * wide) by lia.
    rewrite Nat.div_add by lia.
    pose proof (Nat.Div0.div_le_mono i (N - 1) wide ltac:(lia)). lia.
  - intros Hr. exists (r * wide). split.
    + destruct (decide (r * wide < N)) as [|Hge]; [done|].
      assert ((N + wide - 1) / wide < S r); [|lia].
      apply Nat.Div0.div_lt_upper_bound. nia.
    + apply Nat.div_mul. lia.
Qed.

End CountFacts.

(** ** Word-processor path: proofs *)

Module DocxFacts.
Import Docx.

Lemma snd_imap_pair (g : nat → nat) (l : list string) :
  snd <$> imap (λ idx tf, (g idx, tf)) l = l.
Proof.
  revert g. induction l as [|x l IH]; intros g; simpl; [done|].
  f_equal. apply (IH (g ∘ S)).
Qed.

Lemma snd_enumerate l : snd <$> enumerate l = l.
Proof. apply (snd_imap_pair id). Qed.

Lemma table_rows_app d1 d2 : table_rows (d1 ++ d2) = table_rows d1 ++ table_rows d2.
Proof.
  induction d1 as [|[c cs|] d1 IH]; simpl; [done| |done].
  by rewrite IH.
Qed.

Lemma assemble_snoc wide files f :
  assemble wide (files ++ [f]) = loop_body wide (assemble wide files) f.
Proof. unfold assemble. by rewrite foldl_app. Qed.

(** Loop invariant: the tables hold full rows only, and tables plus the
    pending row are the input read so far. *)
Lemma assemble_inv wide files :
  0 < wide →
  let st := assemble wide files in
  concat (table_rows st.2) ++ st.1 = files
  ∧ Forall (λ r, length r = wide) (table_rows st.2)
  ∧ length st.1 < wide.
Proof.
  intros Hw. induction files as [|f files IH] using rev_ind.
  - simpl. split_and!; [done|constructor|done].
  - rewrite assemble_snoc. simpl in IH.
    destruct (assemble wide files) as [cur doc]. simpl in IH.
    destruct IH as (Hcat & Hfull & Hlen).
    unfold loop_body. simpl. case_decide as Hfill; simpl.
    + rewrite table_rows_app, concat_app. simpl.
      rewrite snd_enumerate, !app_nil_r. split_and!.
      * by rewrite (assoc_L (++)), Hcat.
      * apply Forall_app. split; [done|]. by repeat constructor.
      * done.
    + split_and!; [by rewrite (assoc_L (++)), Hcat|done|].
      rewrite length_app in *. simpl in *. lia.
Qed.

Lemma concat_length_full {A} (ls : list (list A)) n :
  Forall (λ r, length r = n) ls → length (concat ls) = n * length ls.
Proof.
  induction 1 as [|r ls Hr _ IH]; simpl; [lia|].
  rewrite length_app, IH, Hr. lia.
Qed.

Lemma fst_imap_pair (g : nat → nat) (l : list string) :
  (imap (λ idx tf, (g idx, tf)) l).*1 = g <$> seq 0 (length l).
Proof.
  revert g. induction l as [|x l IH]; intros g; simpl; [done|].
  f_equal. rewrite <- fmap_S_seq, <- list_fmap_compose. apply (IH (g ∘ S)).
Qed.

Lemma fst_enumerate l : (enumerate l).*1 = seq 0 (length l).
Proof.
  unfold enumerate. rewrite (fst_imap_pair id). apply list_fmap_id.
Qed.

Lemma length_enumerate l : length (enumerate l) = length l.
Proof. unfold enumerate. apply length_imap. Qed.

(** Every table the loop emits has [wide] columns and one picture in
    each of the cells 0 .. wide-1. *)
Lemma assemble_elements wide files :
  Forall (well_formed_element wide) (assemble wide files).2.
Proof.
  induction files as [|f files IH] using rev_ind; [constructor|].
  rewrite assemble_snoc. destruct (assemble wide files) as [cur doc].
  unfold loop_body. simpl in *. case_decide as Hfill; simpl; [|done].
  apply Forall_app. split; [done|].
  repeat constructor; simpl.
  - by rewrite length_enumerate.
  - by rewrite fst_enumerate, Hfill.
Qed.

End DocxFacts.

(** C1. Word-processor path: for a grid width in 1..10 and any ordered
    list of N rendered images, the document holds exactly N / wide
    tables, each with [wide] cells holding [wide] images, the images of
    the tables read in order are the first N - N mod wide inputs, and the
    trailing N mod wide images stay in [current_row] and are never added. *)
Theorem docx_full_rows_only (wide : nat) (all_temp_files : list string) :
  1 ≤ wide ≤ 10 →
  let N := length all_temp_files in
  let doc := Docx.document wide all_temp_files in
  length (Docx.table_rows doc) = N / wide
  ∧ Forall (λ e, match e with
                 | Docx.Table cols cells =>
                     cols = wide ∧ length cells = wide ∧ cells.*1 = seq 0 wide
                 | Docx.Paragraph => True
                 end) doc
  ∧ Forall (λ r, length r = wide) (Docx.table_rows doc)
  ∧ Docx.images doc = take (N - N mod wide) all_temp_files
  ∧ (Docx.assemble wide all_temp_files).1 = drop (N - N mod wide) all_temp_files.
Proof.
  intros [Hlo Hhi] N doc.
  pose proof (DocxFacts.assemble_inv wide all_temp_files Hlo) as Hinv.
  pose proof (DocxFacts.assemble_elements wide all_temp_files) as Helems.
  subst doc. unfold Docx.document, Docx.images.
  destruct (Docx.assemble wide all_temp_files) as [cur doc] eqn:Hst.
  simpl in *. destruct Hinv as (Hcat & Hfull & Hlen).
  assert (HN : N = wide * length (Docx.table_rows doc) + length cur).
  { subst N. rewrite <- Hcat at 1.
    by rewrite length_app, (DocxFacts.concat_length_full _ wide). }
  destruct (CountFacts.div_mod_of_split _ _ _ _ HN Hlen) as [Hq Hr].
  assert (Hpre : length (concat (Docx.table_rows doc)) = N - N mod wide).
  { rewrite (DocxFacts.concat_length_full _ wide) by done. lia. }
  split_and!.
  - done.
  - done.
  - done.
  - rewrite <- Hpre, <- Hcat. by rewrite take_app_length.
  - rewrite <- Hpre, <- Hcat. by rewrite drop_app_length.
Qed.

(** C1, at a concrete input: seven images, three per row. *)
Lemma docx_full_rows_only_witness :
  1 ≤ 3 ≤ 10
  ∧ Docx.images (Docx.document 3 ["a"; "b"; "c"; "d"; "e"; "f"; "g"])
    = ["a"; "b"; "c"; "d"; "e"; "f"]
  ∧ (Docx.assemble 3 ["a"; "b"; "c"; "d"; "e"; "f"; "g"]).1 = ["g"].
Proof.
  assert (Hw : 1 ≤ 3 ≤ 10) by (split; repeat constructor).
  split; [exact Hw|].
  destruct (docx_full_rows_only 3 ["a"; "b"; "c"; "d"; "e"; "f"; "g"] Hw)
    as (_ & _ & _ & Himg & Hrest).
  split; [exact Himg | exact Hrest].
Defined.

(** ** PDF path: proofs *)

Module PdfFacts.
Import Pdf.
Local Open Scope Qc_scope.

Section layout.
Variable draw_raises : string → bool.
Variable wide : nat.
Hypothesis wide_pos : (0 < wide)%nat.

Lemma column_x_0 : column_x wide 0 = margin.
Proof. unfold column_x. rewrite Nat2Z.inj_0, Z2Qc_inj_0. ring. Qed.

Lemma column_x_S col : column_x wide (S col) = column_x wide col + qr_width wide.
Proof.
  unfold column_x.
  rewrite Nat2Z.inj_succ, <- Z.add_1_r, Z2Qc_inj_add, Z2Qc_inj_1. ring.
Qed.

Lemma start_cursor : start wide = cursor_at wide 0.
Proof.
  unfold start, cursor_at. rewrite Nat.Div0.div_0_l, Nat.Div0.mod_0_l.
  by rewrite column_x_0.
Qed.

(** One iteration takes the cursor of [n] to the cursor of [n + 1] and
    emits what the grid prescribes for image [n]. *)
Lemma place_cursor_at n ops f :
  draw_raises f = false →
  place draw_raises wide (cursor_at wide n, ops) f
  = (cursor_at wide (S n), ops ++ grid_ops wide n f).
Proof using wide_pos.
  intros Hok. unfold place, grid_ops. rewrite Hok.
  pose proof (CountFacts.succ_div_mod n wide wide_pos) as Hstep.
  set (row := row_cursor wide (n / wide)).
  assert (Hnext : row_cursor wide (S (n / wide)) = next_row wide row) by done.
  change (items_in_row (cursor_at wide n)) with (n mod wide)%nat.
  change (y (cursor_at wide n)) with row.2.
  change (x (cursor_at wide n)) with (column_x wide (n mod wide)).
  change (page_count (cursor_at wide n)) with row.1.
  destruct (decide (wide ≤ S (n mod wide))%nat) as [Hfull|Hpart].
  - destruct Hstep as [Hmod Hdiv].
    unfold cursor_at. rewrite Hmod, Hdiv, column_x_0, Hnext.
    unfold next_row.
    destruct (decide (row.2 - qr_height wide < margin)) as [Hturn|Hstay].
    + rewrite decide_True by (split; [done|exact Hturn]).
      by rewrite <- (assoc_L (++)).
    + rewrite decide_False by (intros [_ ?]; by apply Hstay).
      done.
  - destruct Hstep as [Hmod Hdiv].
    unfold cursor_at. rewrite Hmod, Hdiv, column_x_S.
    rewrite decide_False by (intros [? _]; lia).
    done.
Qed.

Lemma foldl_place files :
  Forall (λ f, draw_raises f = false) files →
  foldl (place draw_raises wide) (start wide, []) files
  = (cursor_at wide (length files), concat (imap (grid_ops wide) files)).
Proof using wide_pos.
  induction files as [|f files IH] using rev_ind; intros Hok.
  - by rewrite start_cursor.
  - apply Forall_app in Hok as [Hfiles Hf]. apply Forall_inv in Hf.
    rewrite foldl_app, IH by done. cbn [foldl].
    simpl in Hf. rewrite (place_cursor_at _ _ _ Hf).
    rewrite imap_app, concat_app, length_app. cbn [imap concat length].
    rewrite Nat.add_0_r, Nat.add_1_r, app_nil_r. done.
Qed.

Lemma drawn_app ops1 ops2 : drawn (ops1 ++ ops2) = drawn ops1 ++ drawn ops2.
Proof. unfold drawn. apply omap_app. Qed.

Lemma drawn_grid_ops (g : nat → nat) files :
  drawn (concat (imap (λ i, grid_ops wide (g i)) files)) = files.
Proof.
  revert g. induction files as [|f files IH]; intros g; [done|].
  rewrite imap_cons. cbn [concat]. rewrite drawn_app.
  specialize (IH (g ∘ S)). unfold compose in *. rewrite IH. unfold grid_ops.
  by destruct (decide _).
Qed.

End layout.

(** A row is at least as wide as one tenth of the usable width, so the
    quotient is never taken by zero and the cell is not degenerate. *)
Lemma qr_width_pos wide : (0 < wide)%nat → 0 < qr_width wide.
Proof.
  intros Hw. unfold qr_width, Qcdiv.
  apply Qcmult_pos_pos; [by vm_compute|].
  apply Qcinv_pos. rewrite <- Z2Qc_inj_0. apply (proj1 (Z2Qc_inj_lt _ _)). lia.
Qed.

Lemma qr_height_pos wide : (0 < wide)%nat → 0 < qr_height wide.
Proof.
  intros Hw. unfold qr_height.
  apply Qcmult_pos_pos; [by apply qr_width_pos|by vm_compute].
Qed.

(** For the widths the script admits the first row fits on the page. *)
Lemma top_row_fits wide :
  (1 ≤ wide ≤ 10)%nat → margin ≤ height - margin - qr_height wide.
Proof.
  intros [Hlo Hhi].
  do 11 (destruct wide as [|wide]; [first [lia | by vm_compute]|]). lia.
Qed.

Lemma Qc_sub_le (a h : Qc) : 0 ≤ h → a - h ≤ a.
Proof.
  intros Hh. apply Qcle_minus_iff.
  replace (a + - (a - h)) with h by ring. done.
Qed.

Lemma row_cursor_S wide r :
  row_cursor wide (S r) = next_row wide (row_cursor wide r).
Proof. done. Qed.

Lemma row_cursor_bounds wide r :
  (1 ≤ wide ≤ 10)%nat →
  margin ≤ (row_cursor wide r).2
  ∧ (row_cursor wide r).2 ≤ height - margin - qr_height wide.
Proof.
  intros Hw. pose proof (top_row_fits wide Hw) as Htop.
  induction r as [|r [IHlo IHhi]]; [by split|].
  rewrite row_cursor_S. unfold next_row.
  destruct (decide ((row_cursor wide r).2 - qr_height wide < margin))
    as [Hturn|Hstay]; cbn [snd].
  - split; [exact Htop|apply Qcle_refl].
  - split; [by apply Qcnot_lt_le|].
    eapply Qcle_trans; [|exact IHhi].
    apply Qc_sub_le, Qclt_le_weak, qr_height_pos. lia.
Qed.

Lemma column_x_lt wide a b :
  (0 < wide)%nat → (a < b)%nat → column_x wide a < column_x wide b.
Proof.
  intros Hw Hab. unfold column_x.
  apply Qclt_minus_iff.
  replace (margin + Qc_of_Z (Z.of_nat b) * qr_width wide
           + - (margin + Qc_of_Z (Z.of_nat a) * qr_width wide))
    with ((Qc_of_Z (Z.of_nat b) - Qc_of_Z (Z.of_nat a)) * qr_width wide) by ring.
  apply Qcmult_pos_pos; [|by apply qr_width_pos].
  apply (proj1 (Qclt_minus_iff _ _)). apply (proj1 (Z2Qc_inj_lt _ _)). lia.
Qed.

(** Reading the grid's canvas calls back: the image of index [n + i]
    is on the page and at the corner the grid gives to its cell, the
    page being the number of [showPage] calls before it plus one. *)
Lemma placements_grid wide n files :
  (0 < wide)%nat →
  placements (row_cursor wide (n / wide)).1
             (concat (imap (λ i, grid_ops wide (n + i)) files))
  = imap (λ i f, (f, (row_cursor wide ((n + i) / wide)).1,
                  column_x wide ((n + i) mod wide),
                  (row_cursor wide ((n + i) / wide)).2)) files.
Proof.
  intros Hw. revert n. induction files as [|f files IH]; intros n; [done|].
  rewrite !imap_cons. cbn [concat]. rewrite Nat.add_0_r.
  assert (Hrest : ∀ page,
    page = (row_cursor wide (S n / wide)).1 →
    placements page (concat (imap ((λ i, grid_ops wide (n + i)) ∘ S) files))
    = imap ((λ i f, (f, (row_cursor wide ((n + i) / wide)).1,
                     column_x wide ((n + i) mod wide),
                     (row_cursor wide ((n + i) / wide)).2)) ∘ S) files).
  { intros page ->.
    rewrite (imap_ext _ (λ i, grid_ops wide (S n + i)))
      by (intros i x _; unfold compose; f_equal; lia).
    rewrite IH. apply imap_ext. intros i x _. unfold compose.
    by replace (n + S i)%nat with (S n + i)%nat by lia. }
  unfold grid_ops at 1. cbn [app placements]. f_equal.
  pose proof (CountFacts.succ_div_mod n wide Hw) as Hstep.
  pose proof (row_cursor_S wide (n / wide)) as Hnext. unfold next_row in Hnext.
  destruct (decide (S n mod wide = 0%nat
                    ∧ (row_cursor wide (n / wide)).2 - qr_height wide < margin))
    as [[Hmod Hturn]|Hstay]; cbn [app placements]; apply Hrest.
  - destruct (decide (wide ≤ S (n mod wide))%nat) as [Hfull|Hpart];
      destruct Hstep as [Hmod' Hdiv]; [|lia].
    rewrite Hdiv, Hnext. by rewrite decide_True.
  - destruct (decide (wide ≤ S (n mod wide))%nat) as [Hfull|Hpart];
      destruct Hstep as [Hmod' Hdiv]; rewrite Hdiv; [|done].
    rewrite Hnext. rewrite decide_False; [done|].
    intros Hturn. by apply Hstay.
Qed.

End PdfFacts.

(** ** PDF path: skipped images and pages *)

Module PdfMore.
Import Pdf PdfPages.
Local Open Scope Qc_scope.

Section skipping.
Variable draw_raises : string → bool.
Variable wide : nat.

(** A file that fails to draw leaves the loop variables as they were. *)
Lemma foldl_place_filter st files :
  foldl (place draw_raises wide) st files
  = foldl (place draw_raises wide) st (filter (λ f, draw_raises f = false) files).
Proof.
  revert st. induction files as [|f files IH]; intros st; [done|].
  rewrite filter_cons.
  destruct (decide (draw_raises f = false)) as [Hf|Hf]; cbn [foldl].
  - apply IH.
  - replace (place draw_raises wide st f) with st; [apply IH|].
    destruct st as [cur ops]. unfold place.
    by destruct (draw_raises f).
Qed.

Lemma filter_draws files :
  Forall (λ f, draw_raises f = false) (filter (λ f, draw_raises f = false) files).
Proof.
  apply Forall_forall. intros f Hf. by apply list_elem_of_filter in Hf as [? _].
Qed.

End skipping.

(** The page holds [rows_per_page] rows and not one more. *)
Lemma rows_per_page_bounds wide :
  (1 ≤ wide ≤ 10)%nat →
  (1 ≤ rows_per_page wide)%nat
  ∧ Qc_of_Z (Z.of_nat (rows_per_page wide)) * qr_height wide ≤ usable_height
  ∧ usable_height < (Qc_of_Z (Z.of_nat (rows_per_page wide)) + 1) * qr_height wide.
Proof.
  intros [Hlo Hhi].
  do 11 (destruct wide as [|wide];
         [first [lia | split_and!; [vm_compute; lia|by vm_compute..]]|]).
  lia.
Qed.

Lemma Qc_of_nat_S n : Qc_of_Z (Z.of_nat (S n)) = Qc_of_Z (Z.of_nat n) + 1.
Proof. by rewrite Nat2Z.inj_succ, <- Z.add_1_r, Z2Qc_inj_add, Z2Qc_inj_1. Qed.

(** Page and height of grid row [r] in closed form. *)
Lemma row_cursor_closed wide r :
  (1 ≤ wide ≤ 10)%nat →
  row_cursor wide r
  = ((1 + r / rows_per_page wide)%nat,
     height - margin - qr_height wide
     - Qc_of_Z (Z.of_nat (r mod rows_per_page wide)) * qr_height wide).
Proof.
  intros Hw. destruct (rows_per_page_bounds wide Hw) as (Hk & Hfit & Hover).
  pose proof (PdfFacts.qr_height_pos wide ltac:(lia)) as Hh.
  set (k := rows_per_page wide) in *. set (h := qr_height wide) in *.
  induction r as [|r IH].
  - rewrite Nat.Div0.div_0_l, Nat.Div0.mod_0_l. unfold row_cursor. cbn [Nat.iter].
    apply pair_equal_spec. split; [done|].
    rewrite Nat2Z.inj_0, Z2Qc_inj_0. fold h. ring.
  - rewrite PdfFacts.row_cursor_S, IH. unfold next_row. cbn [fst snd]. fold h.
    pose proof (CountFacts.succ_div_mod r k ltac:(lia)) as Hstep.
    pose proof (Nat.mod_upper_bound r k ltac:(lia)) as Hm.
    set (m := (r mod k)%nat) in *.
    destruct (decide (k ≤ S m)%nat) as [Hfull|Hpart];
      destruct Hstep as [Hmod Hdiv]; rewrite Hmod, Hdiv.
    + assert (Hkm : k = S m) by lia.
      rewrite decide_True.
      * apply pair_equal_spec. split; [done|].
        rewrite Nat2Z.inj_0, Z2Qc_inj_0. ring.
      * apply Qclt_minus_iff. apply Qclt_minus_iff in Hover.
        rewrite Hkm, Qc_of_nat_S in Hover. unfold usable_height in Hover.
        replace (margin + - (height - margin - h - Qc_of_Z (Z.of_nat m) * h - h))
          with ((Qc_of_Z (Z.of_nat m) + 1 + 1) * h + - (height - 2 * margin)) by ring.
        done.
    + rewrite decide_False.
      * apply pair_equal_spec. split; [done|]. rewrite Qc_of_nat_S. ring.
      * apply Qcle_not_lt. apply Qcle_minus_iff.
        replace (height - margin - h - Qc_of_Z (Z.of_nat m) * h - h + - margin)
          with (usable_height + - ((Qc_of_Z (Z.of_nat m) + 1 + 1) * h))
          by (unfold usable_height; ring).
        apply (proj1 (Qcle_minus_iff _ _)).
        eapply Qcle_trans; [|exact Hfit].
        apply Qcmult_le_mono_nonneg_r; [by apply Qclt_le_weak|].
        rewrite <- !Qc_of_nat_S. apply (proj1 (Z2Qc_inj_le _ _)). lia.
Qed.

(** Rows follow each other down the page, and from page to page. *)
Lemma row_cursor_lt wide r r' :
  (1 ≤ wide ≤ 10)%nat → (r < r')%nat →
  ((row_cursor wide r).1 < (row_cursor wide r').1)%nat
  ∨ (row_cursor wide r).1 = (row_cursor wide r').1
    ∧ (row_cursor wide r').2 < (row_cursor wide r).2.
Proof.
  intros Hw Hlt. destruct (rows_per_page_bounds wide Hw) as (Hk & _).
  pose proof (PdfFacts.qr_height_pos wide ltac:(lia)) as Hh.
  rewrite !row_cursor_closed by done. cbn [fst snd].
  set (k := rows_per_page wide) in *.
  pose proof (Nat.Div0.div_le_mono r r' k ltac:(lia)) as Hdiv.
  pose proof (Nat.div_mod_eq r k) as Hr. pose proof (Nat.div_mod_eq r' k) as Hr'.
  destruct (decide (r / k < r' / k)%nat) as [Hpage|Hsame]; [left; lia|right].
  assert (Heq : (r / k = r' / k)%nat) by lia.
  split; [lia|].
  assert (Hmod : (r mod k < r' mod k)%nat) by (rewrite Heq in Hr; lia).
  apply Qclt_minus_iff.
  replace (height - margin - qr_height wide
           - Qc_of_Z (Z.of_nat (r mod k)) * qr_height wide
           + - (height - margin - qr_height wide
                - Qc_of_Z (Z.of_nat (r' mod k)) * qr_height wide))
    with ((Qc_of_Z (Z.of_nat (r' mod k)) - Qc_of_Z (Z.of_nat (r mod k)))
          * qr_height wide) by ring.
  apply Qcmult_pos_pos; [|done].
  apply (proj1 (Qclt_minus_iff _ _)). apply (proj1 (Z2Qc_inj_lt _ _)). lia.
Qed.

Lemma last_of_full_pages N c :
  (0 < c)%nat → (0 < N)%nat → (N mod c = 0)%nat → (N / c = S ((N - 1) / c))%nat.
Proof.
  intros Hc HN Hmod.
  pose proof (Nat.div_mod_eq N c) as Hdm. rewrite Hmod in Hdm.
  assert (Hq : (0 < N / c)%nat) by (destruct (N / c)%nat; lia).
  assert ((N - 1) / c = N / c - 1)%nat; [|lia].
  symmetry. apply (Nat.div_unique _ _ _ (c - 1)); [lia|nia].
Qed.

End PdfMore.

(** C2. PDF path: for a grid width in 1..10 and N images that all draw,
    [generate_pdf] succeeds and draws all N images in input order, the
    last row being partial when [wide] does not divide N. Read back from
    the canvas calls, image [i] lies on the page and at the height of
    grid row [i / wide], in column [i mod wide]; the rows in use are the
    first ceil(N / wide). The cell is not degenerate, so within a row
    the images go strictly from left to right, starting at the left
    margin, and the rows go strictly down the page and from page to
    page, never below the bottom margin. [showPage] is called exactly
    after an image that completes a row whose successor would end below
    the bottom margin, and the next row then starts at the top of the
    new page. *)
Theorem pdf_places_every_image
    (draw_raises : string → bool) (wide : nat) (qr_files : list string) :
  1 ≤ wide ≤ 10 →
  Forall (λ f, draw_raises f = false) qr_files →
  let N := length qr_files in
  let out := Pdf.generate_pdf draw_raises false wide qr_files in
  let row := Pdf.row_cursor wide in
  let top := (Pdf.height - Pdf.margin - Pdf.qr_height wide)%Qc in
  out.2 = true
  ∧ out.1.2 = concat (imap (Pdf.grid_ops wide) qr_files)
  ∧ Pdf.drawn out.1.2 = qr_files
  ∧ Pdf.placements 1 out.1.2
    = imap (λ i f, (f, (row (i / wide)).1, Pdf.column_x wide (i mod wide),
                    (row (i / wide)).2)) qr_files
  ∧ (∀ r, (∃ i, i < N ∧ i / wide = r) ↔ r < (N + wide - 1) / wide)
  ∧ Pdf.page_count out.1.1 = (row (N / wide)).1
  ∧ (0 < Pdf.qr_width wide ∧ 0 < Pdf.qr_height wide)%Qc
  ∧ Pdf.column_x wide 0 = Pdf.margin
  ∧ (∀ i j, i < j → i / wide = j / wide →
       (Pdf.column_x wide (i mod wide) < Pdf.column_x wide (j mod wide))%Qc)
  ∧ row 0 = (1, top)
  ∧ (∀ r, row (S r)
          = if decide ((row r).2 - Pdf.qr_height wide < Pdf.margin)%Qc
            then (S (row r).1, top)
            else ((row r).1, ((row r).2 - Pdf.qr_height wide)%Qc))
  ∧ (∀ r r', r < r' →
       (row r).1 < (row r').1
       ∨ (row r).1 = (row r').1 ∧ ((row r').2 < (row r).2)%Qc)
  ∧ (∀ r, (Pdf.margin ≤ (row r).2)%Qc).
Proof.
  intros [Hlo Hhi] Hok N out row top. subst out row top. unfold Pdf.generate_pdf.
  destruct wide as [|w]; [lia|]. cbn [fst snd].
  rewrite (PdfFacts.foldl_place draw_raises (S w) ltac:(lia) qr_files Hok).
  cbn [fst snd]. split_and!.
  - done.
  - done.
  - apply (PdfFacts.drawn_grid_ops (S w) id).
  - apply (PdfFacts.placements_grid (S w) 0). lia.
  - intros r. apply CountFacts.rows_used. lia.
  - done.
  - apply PdfFacts.qr_width_pos. lia.
  - apply PdfFacts.qr_height_pos. lia.
  - apply PdfFacts.column_x_0.
  - intros i j Hij Hrow. apply PdfFacts.column_x_lt; [lia|].
    pose proof (Nat.div_mod_eq i (S w)). pose proof (Nat.div_mod_eq j (S w)).
    rewrite Hrow in *. lia.
  - done.
  - intros r. apply PdfFacts.row_cursor_S.
  - intros r r' Hlt. apply PdfMore.row_cursor_lt; [lia|done].
  - intros r. apply PdfFacts.row_cursor_bounds. lia.
Qed.

(** C2, at a concrete input: seven images, three per row, fit one page
    in rows of three, three and one. *)
Lemma pdf_places_every_image_witness :
  1 ≤ 3 ≤ 10
  ∧ Forall (λ f, (λ _ : string, false) f = false) ["a"; "b"; "c"; "d"; "e"; "f"; "g"]
  ∧ Pdf.drawn (Pdf.generate_pdf (λ _, false) false 3 ["a"; "b"; "c"; "d"; "e"; "f"; "g"]).1.2
    = ["a"; "b"; "c"; "d"; "e"; "f"; "g"].
Proof.
  assert (Hw : 1 ≤ 3 ≤ 10) by (split; repeat constructor).
  assert (Hok : Forall (λ f, (λ _ : string, false) f = false)
                  ["a"; "b"; "c"; "d"; "e"; "f"; "g"])
    by (repeat constructor).
  split; [exact Hw|]. split; [exact Hok|].
  destruct (pdf_places_every_image (λ _, false) 3 _ Hw Hok) as (_ & _ & H & _).
  exact H.
Defined.

(** C9. PDF cell sizing: the cell width is the page width minus two
    one-inch margins, divided by the number of columns; the cell height
    is 1.2 times the cell width; the labelled image is 1000 by 1200
    pixels, so the cell and the image have the same height-to-width
    ratio 1.2. *)
Theorem pdf_cell_aspect (wide : nat) :
  1 ≤ wide →
  (Pdf.usable_width = Pdf.LETTER_WIDTH - 2 * Pdf.inch
   ∧ Pdf.qr_width wide = Pdf.usable_width / Qc_of_Z (Z.of_nat wide)
   ∧ Pdf.qr_width wide * Qc_of_Z (Z.of_nat wide) = Pdf.usable_width
   ∧ Pdf.qr_height wide = Q2Qc (12 # 10) * Pdf.qr_width wide
   ∧ Render.base_width = 1000%Z
   ∧ Render.base_height = 1200%Z
   ∧ Pdf.qr_height wide / Pdf.qr_width wide
     = Qc_of_Z Render.base_height / Qc_of_Z Render.base_width)%Qc.
Proof.
  intros Hw.
  pose proof (PdfFacts.qr_width_pos wide Hw) as Hpos.
  assert (Hne : Pdf.qr_width wide ≠ 0%Qc).
  { intros Heq. rewrite Heq in Hpos. by apply Qclt_not_eq in Hpos. }
  assert (Hwide : Qc_of_Z (Z.of_nat wide) ≠ 0%Qc).
  { rewrite <- Z2Qc_inj_0. intros Heq. apply Z2Qc_inj in Heq. lia. }
  split_and!.
  - done.
  - done.
  - unfold Pdf.qr_width. by field.
  - unfold Pdf.qr_height. ring.
  - done.
  - by vm_compute.
  - unfold Pdf.qr_height.
    replace (Qc_of_Z Render.base_height / Qc_of_Z Render.base_width)%Qc
      with (Q2Qc (12 # 10)) by (apply Qc_is_canon; by vm_compute).
    by field.
Qed.

(** C9, for three columns: cells of 156 by 187.2 points. *)
Lemma pdf_cell_aspect_witness :
  1 ≤ 3
  ∧ Pdf.qr_width 3 = Qc_of_Z 156
  ∧ (Pdf.qr_height 3 / Pdf.qr_width 3
     = Qc_of_Z Render.base_height / Qc_of_Z Render.base_width)%Qc.
Proof.
  assert (Hw : 1 ≤ 3) by (repeat constructor).
  split; [exact Hw|].
  destruct (pdf_cell_aspect 3 Hw) as (_ & _ & _ & _ & _ & _ & H).
  split; [apply Qc_is_canon; by vm_compute | exact H].
Defined.

(** ** The QR encoder: proofs *)

Module QRFacts.
Import Py QR.

Lemma best_fit_spec (fits : nat → string → bool) (start : nat) text :
  match best_fit fits start text with
  | Return v =>
      start ≤ v ≤ 40 ∧ fits v text = true
      ∧ ∀ v', start ≤ v' < v → fits v' text = false
  | Raise _ => ∀ v', start ≤ v' ≤ 40 → fits v' text = false
  | _ => False
  end.
Proof.
  unfold best_fit.
  destruct (list_find _ _) as [[i v]|] eqn:Hfind.
  - apply list_find_Some in Hfind as (Hi & Hv & Hmin).
    apply lookup_seq in Hi as [-> Hi]. split_and!; [lia|lia|done|].
    intros v' Hv'. apply not_true_is_false.
    apply (Hmin (v' - start) v'); [|lia].
    apply lookup_seq. lia.
  - intros v' Hv'. apply not_true_is_false.
    rewrite list_find_None, Forall_forall in Hfind.
    apply Hfind, elem_of_seq. lia.
Qed.

End QRFacts.

(** C8, as stated, fails: a text of eighteen lower-case letters does not
    fit the configured version 1 and is encoded at version 2. *)
Lemma qr_version_is_raised :
  QR.encode QR.byte_mode_fits Sample.eighteen
  = Py.Return (QR.mkQRCode 2 QR.ERROR_CORRECT_L 10 4 Sample.eighteen).
Proof. by vm_compute. Qed.

(** C8, amended. Every symbol is encoded at correction level L with box
    size 10 and border 4, and these are never changed; the configured
    version 1 is a lower bound: [make(fit=True)] picks the smallest
    version from 1 to 40 that holds the text, and the encoding fails only
    when no version does. *)
Theorem qr_parameters (fits : nat → string → bool) (text : string) :
  match QR.encode fits text with
  | Py.Return qr =>
      QR.error_correction qr = QR.ERROR_CORRECT_L
      ∧ QR.box_size qr = 10
      ∧ QR.border qr = 4
      ∧ QR.data qr = text
      ∧ 1 ≤ QR.version qr ≤ 40
      ∧ fits (QR.version qr) text = true
      ∧ ∀ v, 1 ≤ v < QR.version qr → fits v text = false
  | Py.Raise _ => ∀ v, 1 ≤ v ≤ 40 → fits v text = false
  | _ => False
  end.
Proof.
  unfold QR.encode, QR.make. cbn [QR.version QR.data QR.error_correction
                                   QR.box_size QR.border].
  pose proof (QRFacts.best_fit_spec fits 1 text) as H.
  destruct (QR.best_fit fits 1 text) as [v|err| |]; simpl; [|done..].
  destruct H as (Hv & Hfit & Hmin). split_and!; try done; lia.
Qed.

(** ** The caption font size: proofs *)

Module FontFacts.
Import Py Render.



End FontFacts.



(** ** Python dicts and [sorted]: proofs *)

Module DictFacts.
Import Py.

Section dict.
Context {V : Type}.
Implicit Types d : list (nat * V).






End dict.







End DictFacts.

(** ** Renderer and fan-out: proofs *)

Module FanOutFacts.
Import Py Render FanOut.

(** The path of a rendered image is never the empty string, so
    [if temp_file:] holds for it. *)
Lemma temp_file_nonempty j : String.eqb (temp_file_of j) EmptyString = false.
Proof.
  unfold temp_file_of, path_join. simpl.
  destruct (_ || _); destruct (tmpdirname j); done.
Qed.

(** The body of the [try] either saves the image or raises. *)
Lemma render_body_cases w j :
  render_body w j = Return (row_num j, Some (temp_file_of j))
  ∨ ∃ e, render_body w j = Raise e.
Proof.
  unfold render_body.
  pose proof (QRFacts.best_fit_spec (qr_fits w) 1 (str (cell j))) as Hfit.
  unfold QR.encode, QR.make. simpl.
  destruct (QR.best_fit _ _ _) as [v|e| |]; simpl; [|eauto|done..].
  unfold step.
  destruct (caption_raises w _ _); simpl; [eauto|].
  destruct (save_raises w _); simpl; eauto.
Qed.

Lemma generate_single_qr_returns w j :
  generate_single_qr w j
  = Return (row_num j, if renders w j then Some (temp_file_of j) else None).
Proof.
  unfold generate_single_qr, renders.
  by destruct (render_body_cases w j) as [-> | [e ->]].
Qed.

Lemma collect_generate w verbose st j :
  collect verbose st (generate_single_qr w j)
  = if renders w j
    then Collector (dict_set (results st) (row_num j) (temp_file_of j))
                   (if verbose then advanced st else S (advanced st))
                   (reported st)
    else st.
Proof.
  rewrite generate_single_qr_returns.
  destruct (renders w j); [|done].
  unfold collect, truthy_file. by rewrite temp_file_nonempty.
Qed.

Lemma fan_out_snoc w verbose completed j :
  fan_out w verbose (completed ++ [j])
  = collect verbose (fan_out w verbose completed) (generate_single_qr w j).
Proof. unfold fan_out. by rewrite fmap_app, foldl_app. Qed.

Lemma successes_snoc w jobs j :
  successes w (jobs ++ [j])
  = successes w jobs ++ (if renders w j then [j] else []).
Proof.
  unfold successes. rewrite filter_app. f_equal.
  destruct (renders w j) eqn:Hj.
  - by rewrite filter_cons_True.
  - rewrite filter_cons_False; [done|]. by rewrite Hj.
Qed.

(** The progress counter counts the rows that rendered, and the loop's
    own handler is never entered. *)
Lemma fan_out_counters w verbose completed :
  advanced (fan_out w verbose completed)
  = (if verbose then 0 else length (successes w completed))
  ∧ reported (fan_out w verbose completed) = 0.
Proof.
  induction completed as [|j completed [IHa IHr]] using rev_ind.
  - by destruct verbose.
  - rewrite fan_out_snoc, collect_generate, successes_snoc.
    destruct (renders w j); simpl; [|by rewrite app_nil_r].
    rewrite IHa, IHr, length_app. simpl. destruct verbose; [done|]. split; lia.
Qed.














End FanOutFacts.




(** C5, where the code departs from it: in a run without [--verbose]
    whose single row is too long for any symbol the unit of work
    completes with [(0, None)], and the progress bar, whose total is the
    one row, is never advanced. *)
Lemma no_progress_for_a_failed_row :
  let job := Render.Job 0 (Py.CStr Sample.too_long) "/tmp/qr" false in
  Render.generate_single_qr Sample.linux job = Py.Return (0, None)
  ∧ FanOut.advanced (FanOut.fan_out Sample.linux false [job]) = 0.
Proof. by vm_compute. Qed.



(** ** Spreadsheet ingestion: proofs *)

Module IngestFacts.
Import Py Ingest.

Lemma foldl_scan_step ws col start acc rows :
  foldl (scan_step ws col start) acc rows
  = acc ++ ((λ row, (row - start, cell_at ws row col))
            <$> filter (λ row, truthy (cell_at ws row col) = true) rows).
Proof.
  revert acc. induction rows as [|row rows IH]; intros acc; simpl.
  - by rewrite app_nil_r.
  - rewrite IH. unfold scan_step. rewrite filter_cons.
    destruct (truthy (cell_at ws row col)); case_decide; try done.
    by rewrite <- (assoc_L (++)).
Qed.

(** The loop keeps, in row order, the cells whose value is true in the
    sense of [if cell_value:], each with its offset from the start row. *)
Lemma scan_spec ws col has_header :
  scan ws col has_header
  = (λ row, (row - start_row has_header, cell_at ws row col))
    <$> filter (λ row, truthy (cell_at ws row col) = true)
               (range (start_row has_header) (max_row ws + 1)).
Proof. unfold scan. by rewrite foldl_scan_step. Qed.

Lemma filter_seq_sorted (P : nat → Prop) `{!∀ x, Decision (P x)} a n :
  StronglySorted lt (filter P (seq a n))
  ∧ Forall (λ x, a ≤ x) (filter P (seq a n)).
Proof.
  revert a. induction n as [|n IH]; intros a; simpl; [by split; constructor|].
  destruct (IH (S a)) as [Hs Hge]. rewrite filter_cons.
  assert (Forall (λ x, a < x) (filter P (seq (S a) n)))
    by (eapply Forall_impl; [exact Hge|]; simpl; lia).
  destruct (decide (P a)).
  - split; constructor; [done|done|lia|].
    eapply Forall_impl; [exact Hge|]. simpl. lia.
  - split; [done|]. eapply Forall_impl; [exact Hge|]. simpl. lia.
Qed.

(** The indices of [valid_rows] are strictly ascending. *)
Lemma scan_sorted ws col has_header :
  StronglySorted lt (scan ws col has_header).*1.
Proof.
  rewrite scan_spec, <- list_fmap_compose. unfold range.
  set (start := start_row has_header).
  destruct (filter_seq_sorted (λ row, truthy (cell_at ws row col) = true)
              start (max_row ws + 1 - start)) as [Hs Hge].
  induction Hs as [|x l _ IH Hx]; [constructor|].
  apply Forall_cons in Hge as [Hxge Hge].
  rewrite fmap_cons. constructor; [auto|].
  rewrite Forall_fmap. rewrite Forall_forall in *.
  intros y Hy. specialize (Hx y Hy). specialize (Hge y Hy). simpl. lia.
Qed.

End IngestFacts.

(** C6, evaluated where the code departs from it: in a column holding
    ["a"], the number 0 and ["b"], the cell with 0 is not empty, yet the
    scan yields no pair for it. *)
Lemma scan_drops_a_zero_cell :
  Ingest.scan (Ingest.column_sheet [Py.CStr "a"; Py.CInt 0; Py.CStr "b"]) 1 false
  = [(0, Py.CStr "a"); (2, Py.CStr "b")]
  ∧ Ingest.empty_cell (Py.CInt 0) = false.
Proof. by vm_compute. Qed.

(** ** Exit status: evaluations *)

Module ScriptFacts.
Import Py Script.

(** A column whose only cell holds the number 0 is reported as holding
    no data. *)
Lemma zero_only_column_is_no_data :
  run (Sample.cli (Some "data.xlsx") docx) (Sample.office [CInt 0]) []
  = (0%Z, [Error "No data found in selected column"; Completed]).
Proof. by vm_compute. Qed.

(** The seven-row scenario ends normally with status 0. *)
Lemma seven_rows_succeed :
  run (Sample.cli (Some "data.xlsx") docx) (Sample.office Sample.seven_rows) []
  = (0%Z, [Success; Completed]).
Proof. by vm_compute. Qed.

(** A column index outside the sheet: reported, status 0. *)
Lemma invalid_column_exits_zero :
  run (Arguments (Some 3) (Some docx) false (Some "data.xlsx") (Some 7%Z) false)
      (Sample.office Sample.seven_rows) []
  = (0%Z, [Error "Column number must be between 1 and max_col"; Completed]).
Proof. by vm_compute. Qed.

(** An exception outside the generation stage reaches the outer handler:
    reported, status 1. Here standard input ends at the first prompt. *)
Lemma uncaught_exception_exits_one :
  run (Arguments None None false None None false) (Sample.office Sample.seven_rows) []
  = (1%Z, [Error "EOFError"; Completed]).
Proof. by vm_compute. Qed.

(** Ctrl+C at a prompt: status 0. *)
Lemma cancellation_exits_zero :
  run (Arguments None None false None None false) (Sample.office Sample.seven_rows)
      [Line "n"; CtrlC]
  = (0%Z, [Interrupted; Completed]).
Proof. by vm_compute. Qed.

(** Whatever the surroundings, an input file that does not exist ends
    the run with the error message and status 0. *)
Lemma missing_input_exits_zero (a : arguments) (e : env) (typed : list key) f :
  input a = Some f → f ≠ EmptyString → path_exists e f = false →
  run a e typed = (0%Z, [Error ("Invalid Excel file: " +:+ f); Completed]).
Proof.
  intros Hin Hf Hexists. unfold run, main, body, select_file.
  rewrite Hin. cbn [truthy_str default].
  assert (String.eqb f EmptyString = false) as -> by (by apply String.eqb_neq).
  cbn [negb]. unfold id. rewrite Hexists. reflexivity.
Qed.

End ScriptFacts.

(** C7, evaluated where the code departs from it: [-i missing.xlsx]
    names a file that does not exist; the error is reported and the
    process exits with status 0. *)
Lemma invalid_input_file_exits_zero :
  Script.run (Sample.cli (Some "missing.xlsx") Script.docx)
             (Sample.office Sample.seven_rows) []
  = (0%Z, [Script.Error "Invalid Excel file: missing.xlsx"; Script.Completed]).
Proof. by vm_compute. Qed.

(** ** Rounding does not change what the exact model decides *)

Module Binary64Facts.
Import Binary64.

(** [int(1000 * 1.2)] is 1200 and [int(1200 * 0.2)] is 240 on doubles. *)
Lemma image_size_binary64 :
  int_of_float (1000 * one_point_two) = Render.base_height
  ∧ int_of_float (1200 * zero_point_two) = Render.text_height.
Proof. by vm_compute. Qed.

(** For each width from 1 to 10 the quotient of cell height and cell
    width on doubles is the double 1.2, which is also 1200 / 1000. *)
Lemma aspect_ratio_binary64 :
  forallb (λ wide, (qr_height wide / qr_width wide =? one_point_two)%float)
          (seq 1 10) = true
  ∧ (1200 / 1000 =? one_point_two)%float = true.
Proof. by vm_compute. Qed.

(** For each width from 1 to 10 the page turns of the first 40 rows are
    those of the exact model. *)
Lemma page_turns_binary64 :
  forallb (λ wide, bool_decide (page_turns wide 40 = exact_page_turns wide 40))
          (seq 1 10) = true.
Proof. by vm_compute. Qed.

(** Up to 3000 characters the font size on doubles is the exact one. *)
Lemma font_size_binary64 :
  forallb (λ len, (font_size len =? Z.min 60 (1000 / Z.of_nat (len `max` 10)))%Z)
          (seq 0 3001) = true.
Proof. by vm_compute. Qed.

End Binary64Facts.


(* ================================================================== *)
(** * Further properties of the code *)
(* ================================================================== *)

(** ** Ingestion *)

(** X1. A pair [(index, value)] is in [valid_rows] exactly when some row
    from the start row to [max_row] holds [value] in the selected
    column, [value] is true in the sense of [if cell_value:], and
    [index] is the distance of that row from the start row; so the
    header row never contributes. *)
Theorem valid_rows_membership
    (ws : Ingest.worksheet) (selected_column : nat) (has_header : bool)
    (index : nat) (value : Py.cell_value) :
  (index, value) ∈ Ingest.scan ws selected_column has_header
  ↔ ∃ row, Ingest.start_row has_header ≤ row ≤ Ingest.max_row ws
           ∧ index = row - Ingest.start_row has_header
           ∧ value = Ingest.cell_at ws row selected_column
           ∧ Py.truthy value = true.
Proof.
  rewrite IngestFacts.scan_spec, list_elem_of_fmap. unfold Ingest.range. split.
  - intros (row & Heq & Hin). injection Heq as -> ->.
    apply list_elem_of_filter in Hin as [Ht Hin]. apply elem_of_seq in Hin.
    exists row. split_and!; [lia|lia|done|done|done].
  - intros (row & Hrow & -> & -> & Ht). exists row. split; [done|].
    apply list_elem_of_filter. split; [done|]. apply elem_of_seq. lia.
Qed.

(** X2. The indices of [valid_rows] are strictly ascending, each is
    below the number of data rows, and there are at most that many
    pairs. *)
Theorem valid_rows_ascending
    (ws : Ingest.worksheet) (selected_column : nat) (has_header : bool) :
  let valid_rows := Ingest.scan ws selected_column has_header in
  let data_rows := Ingest.max_row ws + 1 - Ingest.start_row has_header in
  StronglySorted lt valid_rows.*1
  ∧ Forall (λ index, index < data_rows) valid_rows.*1
  ∧ length valid_rows ≤ data_rows.
Proof.
  intros valid_rows data_rows. split_and!.
  - apply IngestFacts.scan_sorted.
  - apply Forall_forall. intros index Hin.
    subst valid_rows. rewrite IngestFacts.scan_spec, <- list_fmap_compose in Hin.
    apply list_elem_of_fmap in Hin as (row & -> & Hin).
    apply list_elem_of_filter in Hin as [_ Hin]. apply elem_of_seq in Hin.
    subst data_rows. simpl. lia.
  - subst valid_rows data_rows. rewrite IngestFacts.scan_spec, length_fmap.
    etrans; [apply length_filter|]. unfold Ingest.range. by rewrite length_seq.
Qed.

(** ** Renderer and fan-out *)

Module RenderMore.
Import Py Render FanOut.

Lemma length_filter_all {A} (P : A → Prop) `{!∀ x, Decision (P x)} (l : list A) :
  length (filter P l) = length l ↔ Forall P l.
Proof.
  induction l as [|x l IH]; [by split; [constructor|]|].
  rewrite filter_cons. destruct (decide (P x)) as [Hx|Hx]; simpl.
  - rewrite Forall_cons. split.
    + intros Hlen. split; [done|]. apply IH. lia.
    + intros [_ Hl]. f_equal. by apply IH.
  - pose proof (length_filter P l). split; [lia|].
    intros Hall. by apply Forall_cons in Hall as [? _].
Qed.

Lemma append_inj_l (a x y : string) : a +:+ x = a +:+ y → x = y.
Proof. induction a as [|c a IH]; simpl; [done|]. intros [= H]. auto. Qed.

Lemma length_append (x y : string) :
  String.length (x +:+ y) = String.length x + String.length y.
Proof. induction x as [|c x IH]; simpl; [done|]. by rewrite IH. Qed.

Lemma append_inj_r (x y s : string) : x +:+ s = y +:+ s → x = y.
Proof.
  revert y. induction x as [|c x IH]; intros [|d y] Heq; simpl in *.
  - done.
  - apply (f_equal String.length) in Heq.
    rewrite !length_append in Heq. simpl in Heq. lia.
  - apply (f_equal String.length) in Heq.
    rewrite !length_append in Heq. simpl in Heq. lia.
  - injection Heq as -> Heq. f_equal. auto.
Qed.

Lemma to_uint_not_Nil n : Nat.to_uint n ≠ Decimal.Nil.
Proof.
  intros H. pose proof (DecimalNat.Unsigned.of_to n) as Hn.
  rewrite H in Hn. simpl in Hn. subst n. discriminate H.
Qed.

(** Printing a row number in decimal loses nothing. *)
Lemma str_nat_inj n1 n2 : str_nat n1 = str_nat n2 → n1 = n2.
Proof.
  unfold str_nat. intros Heq.
  apply (f_equal NilZero.uint_of_string) in Heq.
  rewrite !NilZero.usu in Heq by apply to_uint_not_Nil.
  injection Heq as Heq. by apply DecimalNat.Unsigned.to_uint_inj.
Qed.

End RenderMore.

(** X3. In a run without [--verbose] the progress bar reaches the
    number of units of work exactly when every row rendered: one failed
    row leaves it short of its total for good. *)
Theorem progress_bar_completes
    (w : Render.world) (completed : list Render.job) :
  FanOut.advanced (FanOut.fan_out w false completed) = length completed
  ↔ Forall (λ j, Render.renders w j = true) completed.
Proof.
  destruct (FanOutFacts.fan_out_counters w false completed) as [-> _].
  apply RenderMore.length_filter_all.
Qed.

(** X4. Within one temporary directory two jobs write the same file
    only if they have the same row number: no worker overwrites the
    image of another row. *)
Theorem temp_file_per_row (j1 j2 : Render.job) :
  Render.tmpdirname j1 = Render.tmpdirname j2 →
  Render.temp_file_of j1 = Render.temp_file_of j2 →
  Render.row_num j1 = Render.row_num j2.
Proof.
  unfold Render.temp_file_of, Py.path_join. intros <-. simpl.
  intros Heq. apply RenderMore.str_nat_inj.
  apply (RenderMore.append_inj_r _ _ ".png").
  destruct (_ || _).
  - apply RenderMore.append_inj_l in Heq. by injection Heq.
  - apply RenderMore.append_inj_l in Heq. by injection Heq.
Qed.

(** X4, for rows 3 and 3 of the same directory. *)
Lemma temp_file_per_row_witness :
  let j1 := Render.Job 3 (Py.CStr "a") "/tmp/qr" false in
  let j2 := Render.Job 3 (Py.CInt 7) "/tmp/qr" true in
  Render.tmpdirname j1 = Render.tmpdirname j2
  ∧ Render.temp_file_of j1 = Render.temp_file_of j2
  ∧ Render.row_num j1 = Render.row_num j2.
Proof.
  intros j1 j2.
  assert (Hd : Render.tmpdirname j1 = Render.tmpdirname j2) by reflexivity.
  assert (Hf : Render.temp_file_of j1 = Render.temp_file_of j2) by reflexivity.
  split; [exact Hd|]. split; [exact Hf|].
  exact (temp_file_per_row j1 j2 Hd Hf).
Defined.

(** X5. The font loop returns the first candidate, in list order, that
    exists and loads at the requested size; every candidate before it is
    missing or fails to load. It returns nothing exactly when every
    candidate is missing or fails to load. *)
Theorem find_font_first_usable
    (w : Render.world) (size : Z) (paths : list string) :
  let unusable p := Render.path_exists w p = false
                    ∨ Render.truetype_raises w p size = true in
  match Render.find_font w size paths with
  | Some font =>
      ∃ before after, paths = before ++ font :: after
        ∧ Forall unusable before
        ∧ Render.path_exists w font = true
        ∧ Render.truetype_raises w font size = false
  | None => Forall unusable paths
  end.
Proof.
  intros unusable. induction paths as [|p paths IH]; simpl; [constructor|].
  destruct (Render.path_exists w p) eqn:He;
    [destruct (Render.truetype_raises w p size) eqn:Ht|].
  - destruct (Render.find_font w size paths) as [font|].
    + destruct IH as (before & after & -> & Hb & Hf).
      exists (p :: before), after. split; [done|]. split; [|done].
      constructor; [by right|done].
    + constructor; [by right|done].
  - exists [], paths. by split_and!.
  - destruct (Render.find_font w size paths) as [font|].
    + destruct IH as (before & after & -> & Hb & Hf).
      exists (p :: before), after. split; [done|]. split; [|done].
      constructor; [by left|done].
    + constructor; [by left|done].
Qed.

(** ** Truncating a double *)

Module FloatFacts.
Import Binary64.
Local Open Scope Z_scope.

Lemma digits2_pos_bounds (p : positive) :
  2 ^ (Z.pos (digits2_pos p) - 1) ≤ Z.pos p < 2 ^ Z.pos (digits2_pos p).
Proof.
  induction p as [p IH|p IH|]; cbn [digits2_pos].
  - rewrite Pos2Z.inj_succ.
    replace (Z.succ (Z.pos (digits2_pos p)) - 1) with (Z.succ (Z.pos (digits2_pos p) - 1)) by lia.
    rewrite !Z.pow_succ_r by lia. lia.
  - rewrite Pos2Z.inj_succ.
    replace (Z.succ (Z.pos (digits2_pos p)) - 1) with (Z.succ (Z.pos (digits2_pos p) - 1)) by lia.
    rewrite !Z.pow_succ_r by lia. lia.
  - by vm_compute.
Qed.

(** A valid mantissa has at most 53 bits, and exactly 53 above the
    smallest exponent. *)
Lemma bounded_mantissa m e :
  bounded prec emax m e = true →
  -1074 ≤ e ∧ Z.pos m < 2 ^ 53 ∧ (-1074 < e → 2 ^ 52 ≤ Z.pos m).
Proof.
  unfold bounded, canonical_mantissa, fexp, emin, prec, emax.
  intros [Hc _]%andb_true_iff. apply Z.eqb_eq in Hc.
  pose proof (digits2_pos_bounds m) as [Hlo Hhi].
  set (d := Z.pos (digits2_pos m)) in *.
  assert (Hd : d ≤ 53 ∧ -1074 ≤ e ∧ (-1074 < e → d = 53)) by lia.
  destruct Hd as (Hd & He & Hfull). split_and!.
  - done.
  - eapply Z.lt_le_trans; [exact Hhi|]. apply Z.pow_le_mono_r; lia.
  - intros Hgt. rewrite (Hfull Hgt) in Hlo. exact Hlo.
Qed.

(** On valid non-negative floats the comparison of exponents and
    mantissas is the comparison of the values. *)
Lemma compare_scaled m1 e1 m2 e2 :
  bounded prec emax m1 e1 = true → bounded prec emax m2 e2 = true →
  match SFcompare (S754_finite false m1 e1) (S754_finite false m2 e2) with
  | Some Lt => Z.pos m1 * 2 ^ (e1 + 1074) < Z.pos m2 * 2 ^ (e2 + 1074)
  | Some Eq => Z.pos m1 * 2 ^ (e1 + 1074) = Z.pos m2 * 2 ^ (e2 + 1074)
  | _ => True
  end.
Proof.
  intros (He1 & Hm1 & _)%bounded_mantissa (He2 & _ & Hm2)%bounded_mantissa.
  cbn [SFcompare]. destruct (Z.compare_spec e1 e2) as [->|Hlt|Hgt]; [| |done].
  - change (PosDef.Pos.compare_cont Eq m1 m2) with (Pos.compare m1 m2).
    destruct (Pos.compare_spec m1 m2) as [->|Hm|Hm]; [done| |done].
    apply Z.mul_lt_mono_pos_r; [apply Z.pow_pos_nonneg; lia|lia].
  - specialize (Hm2 ltac:(lia)).
    apply Z.lt_le_trans with (2 ^ 53 * 2 ^ (e1 + 1074)).
    { apply Z.mul_lt_mono_pos_r; [apply Z.pow_pos_nonneg; lia|done]. }
    apply Z.le_trans with (2 ^ 52 * 2 ^ (e2 + 1074)).
    + rewrite <- !Z.pow_add_r by lia. apply Z.pow_le_mono_r; lia.
    + apply Z.mul_le_mono_nonneg_r; [apply Z.pow_nonneg; lia|done].
Qed.

Lemma int_of_float_scaled m e :
  -1074 ≤ e →
  (if 0 <=? e then Z.pos m * 2 ^ e else Z.pos m / 2 ^ (- e))
  = Z.pos m * 2 ^ (e + 1074) / 2 ^ 1074.
Proof.
  intros He. destruct (Z.leb_spec 0 e) as [Hnn|Hneg].
  - rewrite Z.pow_add_r by lia. rewrite Z.mul_assoc.
    rewrite Z.div_mul; [done|]. apply Z.pow_nonzero; lia.
  - assert (Hpow : 2 ^ 1074 = 2 ^ (- e) * 2 ^ (e + 1074)).
    { rewrite <- Z.pow_add_r by lia. f_equal. lia. }
    rewrite Hpow.
    rewrite Z.div_mul_cancel_r; [done| |]; apply Z.pow_nonzero; lia.
Qed.

(** [int(f)] of a float between two non-negative floats. *)
Lemma int_of_float_between (lo hi f : float) (vlo vhi : Z) :
  scaled lo = Some vlo → scaled hi = Some vhi →
  (lo <=? f)%float = true → (f <? hi)%float = true →
  vlo / 2 ^ 1074 ≤ int_of_float f ∧ int_of_float f * 2 ^ 1074 < vhi.
Proof.
  unfold scaled, int_of_float.
  rewrite FloatAxioms.leb_spec, FloatAxioms.ltb_spec. unfold SFleb, SFltb.
  pose proof (Prim2SF_valid lo) as Vlo. pose proof (Prim2SF_valid hi) as Vhi.
  pose proof (Prim2SF_valid f) as Vf.
  destruct (Prim2SF lo) as [slo| | |[] mlo elo]; try done;
    destruct (Prim2SF hi) as [shi| | |[] mhi ehi]; try done;
    destruct (Prim2SF f) as [sf|[]| |[] mf ef]; try done;
    intros [= <-] [= <-]; cbn [SFcompare]; try done.
  all: cbn [FloatAxioms.valid_binary valid_binary] in *.
  - (* zero, finite, zero *) intros _ _. split; [done|]. 
    apply Z.mul_pos_pos; [lia|]. apply bounded_mantissa in Vhi. apply Z.pow_pos_nonneg; lia.
  - (* zero ≤ finite f < finite hi *)
    intros _ Hlt. pose proof (compare_scaled mf ef mhi ehi Vf Vhi) as Hc.
    cbn [SFcompare] in Hc.
    destruct (bounded_mantissa _ _ Vf) as (He & _ & _).
    cbv beta zeta iota. rewrite (int_of_float_scaled mf ef He).
    assert (H2 : Z.pos mf * 2 ^ (ef + 1074) < Z.pos mhi * 2 ^ (ehi + 1074)).
    { destruct (ef ?= ehi); [destruct (PosDef.Pos.compare_cont Eq mf mhi)| |];
        simpl in Hlt; first [discriminate | exact Hc]. }
    split.
    + apply Z.div_pos; [|apply Z.pow_pos_nonneg; lia].
      apply Z.mul_nonneg_nonneg; [lia|apply Z.pow_nonneg; lia].
    + eapply Z.le_lt_trans; [|exact H2]. rewrite Z.mul_comm. apply Z.mul_div_le.
      apply Z.pow_pos_nonneg; lia.
  - intros Hle Hlt.
    pose proof (compare_scaled mlo elo mf ef Vlo Vf) as Hc1.
    pose proof (compare_scaled mf ef mhi ehi Vf Vhi) as Hc2.
    cbn [SFcompare] in Hc1, Hc2.
    destruct (bounded_mantissa _ _ Vf) as (He & _ & _).
    cbv beta zeta iota. rewrite (int_of_float_scaled mf ef He).
    assert (H1 : Z.pos mlo * 2 ^ (elo + 1074) ≤ Z.pos mf * 2 ^ (ef + 1074)).
    { destruct (elo ?= ef); [destruct (PosDef.Pos.compare_cont Eq mlo mf)| |];
        simpl in Hle; first [discriminate | lia]. }
    assert (H2 : Z.pos mf * 2 ^ (ef + 1074) < Z.pos mhi * 2 ^ (ehi + 1074)).
    { destruct (ef ?= ehi); [destruct (PosDef.Pos.compare_cont Eq mf mhi)| |];
        simpl in Hlt; first [discriminate | exact Hc2]. }
    split.
    + apply Z.div_le_mono; [apply Z.pow_pos_nonneg; lia|done].
    + eapply Z.le_lt_trans; [|exact H2]. rewrite Z.mul_comm. apply Z.mul_div_le.
      apply Z.pow_pos_nonneg; lia.
Qed.

Lemma scaled_0 : scaled 0 = Some 0.
Proof. reflexivity. Qed.
Lemma scaled_1 : scaled 1 = Some (1 * 2 ^ 1074).
Proof. by vm_compute. Qed.
Lemma scaled_193 : scaled 193 = Some (193 * 2 ^ 1074).
Proof. by vm_compute. Qed.
Lemma scaled_801 : scaled 801 = Some (801 * 2 ^ 1074).
Proof. by vm_compute. Qed.

(** [int(f)] for a float in one of the three ranges the caption code
    meets. *)
Lemma int_of_float_in (lo hi f : float) (a b : Z) :
  scaled lo = Some (a * 2 ^ 1074) → scaled hi = Some (b * 2 ^ 1074) →
  (lo <=? f)%float = true → (f <? hi)%float = true →
  a ≤ int_of_float f < b.
Proof.
  intros Hlo Hhi Hle Hlt.
  destruct (int_of_float_between lo hi f _ _ Hlo Hhi Hle Hlt) as [H1 H2].
  assert (Hp : 0 < 2 ^ 1074) by (by apply Z.pow_pos_nonneg).
  rewrite Z.div_mul in H1 by lia. split; [done|].
  by apply Z.mul_lt_mono_pos_r in H2.
Qed.

End FloatFacts.

(** ** The caption in the built-in font *)

Module FallbackFacts.
Import Py Render Binary64 Fallback.
Local Open Scope Z_scope.

Lemma all_from_spec n start P z :
  all_from n start P = true → start ≤ z < start + Z.of_nat n → P z = true.
Proof.
  revert start. induction n as [|n IH]; intros start Hall Hz; [lia|].
  cbn [all_from] in Hall. apply andb_true_iff in Hall as [Hhere Hrest].
  destruct (decide (z = start)) as [->|Hne]; [done|].
  apply (IH (start + 1)); [done|lia].
Qed.

(** The check, on the doubles, for every box up to 32768 pixels wide
    and 32 pixels high. *)
Lemma checked_boxes :
  all_from (Z.to_nat 32768) 1 (λ w, all_from (Z.to_nat 32) 1 (checked w)) = true.
Proof. by vm_compute. Qed.

Lemma checked_box w h : 1 ≤ w ≤ 32768 → 1 ≤ h ≤ 32 → checked w h = true.
Proof.
  intros Hw Hh.
  pose proof (all_from_spec _ _ _ w checked_boxes ltac:(lia)) as Hrow.
  cbv beta in Hrow. apply (all_from_spec _ _ _ h Hrow). lia.
Qed.

End FallbackFacts.

(** X6. The built-in font path on doubles, for every bounding box of
    the caption up to 32768 by 32 pixels. A caption at most 800 times as
    wide as high is scaled to a width of 1 to 800 and a height of 1 to
    192 pixels and pasted with at least 100 pixels free on the left and
    on the right and 24 pixels free above and below, so it stays inside
    the 240-pixel caption band and never reaches the QR symbol. A
    caption more than 800 times as wide as high is scaled to a height of
    0: [resize] raises and the row is lost. *)
Theorem fallback_caption_fits (text_width text_actual_height : Z) :
  (1 ≤ text_width ≤ 32768)%Z → (1 ≤ text_actual_height ≤ 32)%Z →
  match Fallback.place_caption text_width text_actual_height with
  | Py.Return c =>
      (text_width ≤ 800 * text_actual_height
       ∧ 1 ≤ Fallback.scaled_width c ≤ 800
       ∧ 1 ≤ Fallback.scaled_height c ≤ 192
       ∧ 100 ≤ Fallback.text_x c
       ∧ Fallback.text_x c + Fallback.scaled_width c ≤ 900
       ∧ 24 ≤ Fallback.text_y c
       ∧ Fallback.text_y c + Fallback.scaled_height c ≤ 216)%Z
  | Py.Raise e => e = "ValueError" ∧ (800 * text_actual_height < text_width)%Z
  | _ => False
  end.
Proof.
  intros Hw Hh.
  pose proof (FallbackFacts.checked_box _ _ Hw Hh) as Hc.
  unfold Fallback.checked, Fallback.place_caption in *.
  destruct (Fallback.scale_factor text_width text_actual_height)
    as [scale| | |]; [|done..].
  cbn [Py.bind].
  apply andb_true_iff in Hc as [[Hw1 Hw2]%andb_true_iff Hheight].
  pose proof (FloatFacts.int_of_float_in _ _ _ 1 801 FloatFacts.scaled_1
                FloatFacts.scaled_801 Hw1 Hw2) as Hsw.
  set (sw := Binary64.int_of_float _) in *. clearbody sw.
  destruct (Z.leb_spec text_width (800 * text_actual_height)) as [Hflat|Hflat].
  - apply andb_true_iff in Hheight as [Hh1 Hh2].
    pose proof (FloatFacts.int_of_float_in _ _ _ 1 193 FloatFacts.scaled_1
                  FloatFacts.scaled_193 Hh1 Hh2) as Hsh.
    set (sh := Binary64.int_of_float _) in *. clearbody sh.
    assert ((sw <=? 0)%Z || (sh <=? 0)%Z = false) as ->.
    { apply orb_false_iff. split; apply Z.leb_gt; lia. }
    cbn [Py.step Py.bind Fallback.scaled_width Fallback.scaled_height
         Fallback.text_x Fallback.text_y].
    assert (Htext : Render.text_height = 240%Z) by (by vm_compute).
    rewrite Htext. unfold Render.base_width.
    pose proof (Z.mul_div_le (1000 - sw) 2 ltac:(lia)).
    pose proof (Z.mul_div_le (240 - sh) 2 ltac:(lia)).
    repeat split; try lia; apply Z.div_le_lower_bound; lia.
  - apply andb_true_iff in Hheight as [Hh1 Hh2].
    pose proof (FloatFacts.int_of_float_in _ _ _ 0 1 FloatFacts.scaled_0
                  FloatFacts.scaled_1 Hh1 Hh2) as Hsh.
    set (sh := Binary64.int_of_float _) in *. clearbody sh.
    assert ((sw <=? 0)%Z || (sh <=? 0)%Z = true) as ->.
    { apply orb_true_iff. right. apply Z.leb_le. lia. }
    cbn [Py.step Py.bind]. split; [done|lia].
Qed.

(** X6, for two captions in the built-in font: one of 97 by 1 pixels
    is scaled to 799 by 8, the product of 97 and the double nearest to
    800 / 97 being just below 800, and pasted at (100, 116); one of 7501
    by 6 pixels is lost. *)
Lemma fallback_caption_fits_witness :
  (1 ≤ 97 ≤ 32768)%Z ∧ (1 ≤ 1 ≤ 32)%Z
  ∧ Fallback.place_caption 97 1 = Py.Return (Fallback.Caption 799 8 100 116)
  ∧ Fallback.place_caption 7501 6 = Py.Raise "ValueError"
  ∧ (97 ≤ 800 * 1)%Z.
Proof.
  assert (Hw : (1 ≤ 97 ≤ 32768)%Z) by (split; discriminate).
  assert (Hh : (1 ≤ 1 ≤ 32)%Z) by (split; discriminate).
  assert (Hc : Fallback.place_caption 97 1
               = Py.Return (Fallback.Caption 799 8 100 116))
    by (vm_compute; reflexivity).
  assert (Hlost : Fallback.place_caption 7501 6 = Py.Raise "ValueError")
    by (vm_compute; reflexivity).
  split; [exact Hw|]. split; [exact Hh|]. split; [exact Hc|]. split; [exact Hlost|].
  pose proof (fallback_caption_fits 97 1 Hw Hh) as H.
  rewrite Hc in H. exact (proj1 H).
Defined.

(** X7. An image that [drawImage] refuses is skipped without leaving a
    hole: for any positive width the canvas calls are those of the grid
    for the list of the images that do draw, in their order. *)
Theorem pdf_skips_failed_draws
    (draw_raises : string → bool) (save_raises : bool) (wide : nat)
    (qr_files : list string) :
  0 < wide →
  let drawable := filter (λ f, draw_raises f = false) qr_files in
  let out := Pdf.generate_pdf draw_raises save_raises wide qr_files in
  out = Pdf.generate_pdf draw_raises save_raises wide drawable
  ∧ out.1.2 = concat (imap (Pdf.grid_ops wide) drawable)
  ∧ Pdf.drawn out.1.2 = drawable.
Proof.
  intros Hw drawable out. subst out. unfold Pdf.generate_pdf.
  destruct wide as [|w]; [lia|].
  assert (Hdraw : foldl (Pdf.place draw_raises (S w)) (Pdf.start (S w), []) drawable
                  = (Pdf.cursor_at (S w) (length drawable),
                     concat (imap (Pdf.grid_ops (S w)) drawable))).
  { apply PdfFacts.foldl_place; [lia|]. apply PdfMore.filter_draws. }
  rewrite (PdfMore.foldl_place_filter draw_raises (S w) _ qr_files).
  fold drawable. rewrite Hdraw. cbn [fst snd]. split_and!.
  - done.
  - done.
  - apply (PdfFacts.drawn_grid_ops (S w) id).
Qed.

(** X7, for three images of which the second does not draw. *)
Lemma pdf_skips_failed_draws_witness :
  0 < 2
  ∧ Pdf.drawn (Pdf.generate_pdf (λ f, String.eqb f "b") false 2 ["a"; "b"; "c"]).1.2
    = ["a"; "c"].
Proof.
  assert (Hw : 0 < 2) by (repeat constructor).
  split; [exact Hw|].
  destruct (pdf_skips_failed_draws (λ f, String.eqb f "b") false 2 ["a"; "b"; "c"] Hw)
    as (_ & _ & H).
  exact H.
Defined.

(** X8. For a width from 1 to 10 a page holds [rows_per_page] rows of
    cells (1, 2, 3, 4, 5, 6, 8, 9, 10, 11 rows for the widths 1 to 10),
    so [wide * rows_per_page] images. Read back from the canvas calls
    of [generate_pdf], the [i]-th of the images that draw is on page
    [1 + i / (wide * rows_per_page)], in column [i mod wide] and in row
    [(i / wide) mod rows_per_page] of that page, counted from the top:
    [i mod wide] cell widths from the left margin and one more cell
    height than that row number below the top margin. *)
Theorem pdf_page_of_image
    (draw_raises : string → bool) (save_raises : bool) (wide : nat)
    (qr_files : list string) :
  1 ≤ wide ≤ 10 →
  let k := PdfPages.rows_per_page wide in
  let drawable := filter (λ f, draw_raises f = false) qr_files in
  1 ≤ k
  ∧ Pdf.placements 1 (Pdf.generate_pdf draw_raises save_raises wide qr_files).1.2
    = imap (λ i f,
              (f, 1 + i / (wide * k),
               (Pdf.margin + Qc_of_Z (Z.of_nat (i mod wide)) * Pdf.qr_width wide)%Qc,
               (Pdf.height - Pdf.margin - Pdf.qr_height wide
                - Qc_of_Z (Z.of_nat ((i / wide) mod k)) * Pdf.qr_height wide)%Qc))
           drawable
  ∧ PdfPages.rows_per_page <$> seq 1 10 = [1; 2; 3; 4; 5; 6; 8; 9; 10; 11].
Proof.
  intros Hw k drawable. split_and!.
  - by destruct (PdfMore.rows_per_page_bounds wide Hw) as (? & _).
  - unfold Pdf.generate_pdf. destruct wide as [|w]; [lia|].
    rewrite (PdfMore.foldl_place_filter draw_raises (S w) _ qr_files).
    fold drawable.
    rewrite PdfFacts.foldl_place; [|lia|apply PdfMore.filter_draws].
    cbn [fst snd].
    rewrite (PdfFacts.placements_grid (S w) 0) by lia.
    apply imap_ext. intros i f _. cbn [Nat.add].
    rewrite PdfMore.row_cursor_closed by done. fold k. cbn [fst snd].
    by rewrite Nat.Div0.div_div.
  - by vm_compute.
Qed.

(** X8, for ten images in three columns: nine fill the first page, the
    tenth opens the second. *)
Lemma pdf_page_of_image_witness :
  1 ≤ 3 ≤ 10
  ∧ (λ p, p.1.1.2)
    <$> Pdf.placements 1
          (Pdf.generate_pdf (λ _, false) false 3
             ["a"; "b"; "c"; "d"; "e"; "f"; "g"; "h"; "i"; "j"]).1.2
    = [1; 1; 1; 1; 1; 1; 1; 1; 1; 2].
Proof.
  assert (Hw : 1 ≤ 3 ≤ 10) by (split; repeat constructor).
  split; [exact Hw|].
  destruct (pdf_page_of_image (λ _, false) false 3
              ["a"; "b"; "c"; "d"; "e"; "f"; "g"; "h"; "i"; "j"] Hw) as (_ & H & _).
  rewrite H. reflexivity.
Defined.

(** X9. The page counter of [generate_pdf] ends at one plus the number
    of completely filled pages; when the images that draw fill their
    last page exactly, a page is turned after the last image and the
    counter is one more than the page that image is on. *)
Theorem pdf_page_count
    (draw_raises : string → bool) (save_raises : bool) (wide : nat)
    (qr_files : list string) :
  1 ≤ wide ≤ 10 →
  let N := length (filter (λ f, draw_raises f = false) qr_files) in
  let per_page := wide * PdfPages.rows_per_page wide in
  let pages := Pdf.page_count (Pdf.generate_pdf draw_raises save_raises wide qr_files).1.1 in
  pages = 1 + N / per_page
  ∧ (0 < N → N mod per_page = 0 →
     pages = S (Pdf.row_cursor wide ((N - 1) / wide)).1).
Proof.
  intros Hw N per_page pages.
  destruct (PdfMore.rows_per_page_bounds wide Hw) as (Hk & _).
  assert (Hpages : pages = 1 + N / per_page).
  { subst pages. unfold Pdf.generate_pdf. destruct wide as [|w]; [lia|].
    rewrite (PdfMore.foldl_place_filter draw_raises (S w) _ qr_files).
    rewrite PdfFacts.foldl_place; [|lia|apply PdfMore.filter_draws].
    cbn [fst snd Pdf.cursor_at Pdf.page_count].
    rewrite PdfMore.row_cursor_closed by done. cbn [fst].
    subst N per_page. by rewrite Nat.Div0.div_div. }
  split; [done|]. intros HN Hmod.
  rewrite Hpages, PdfMore.row_cursor_closed by done. cbn [fst].
  rewrite Nat.Div0.div_div. fold per_page.
  rewrite (PdfMore.last_of_full_pages N per_page); [lia| |done|done].
  subst per_page. nia.
Qed.

(** X9, for nine images in three columns: they fill page 1, and the
    counter says 2. *)
Lemma pdf_page_count_witness :
  1 ≤ 3 ≤ 10
  ∧ Pdf.page_count
      (Pdf.generate_pdf (λ _, false) false 3
         ["a"; "b"; "c"; "d"; "e"; "f"; "g"; "h"; "i"]).1.1 = 2.
Proof.
  assert (Hw : 1 ≤ 3 ≤ 10) by (split; repeat constructor).
  split; [exact Hw|].
  destruct (pdf_page_count (λ _, false) false 3
              ["a"; "b"; "c"; "d"; "e"; "f"; "g"; "h"; "i"] Hw) as (H & _).
  rewrite H. reflexivity.
Defined.

(** ** [create_page] *)

Module PageFacts.
Import Py Page.

Lemma succ_div_mod_Z (k w : Z) :
  (0 ≤ k)%Z → (0 < w)%Z →
  if decide (w ≤ k mod w + 1)%Z
  then ((k + 1) mod w = 0 ∧ (k + 1) / w = k / w + 1)%Z
  else ((k + 1) mod w = k mod w + 1 ∧ (k + 1) / w = k / w)%Z.
Proof.
  intros Hk Hw.
  pose proof (Z.div_mod k w ltac:(lia)) as Hdm.
  pose proof (Z.mod_pos_bound k w Hw) as Hm.
  case_decide as Hfull.
  - assert (Hq : ((k + 1) / w = k / w + 1)%Z).
    { symmetry. apply (Z.div_unique _ _ _ 0); lia. }
    split; [|done]. rewrite Z.mod_eq by lia. rewrite Hq. lia.
  - assert (Hq : ((k + 1) / w = k / w)%Z).
    { symmetry. apply (Z.div_unique _ _ _ (k mod w + 1)); lia. }
    split; [|done]. rewrite Z.mod_eq by lia. rewrite Hq. lia.
Qed.

Section tiles.
Variable path_exists : string → bool.
Variable open_raises : string → bool.
Variables hi_res_margin hi_res_qr wide : Z.
Hypothesis wide_pos : (0 < wide)%Z.

(** The loop variables after [k] images have been pasted. *)
Lemma paste_all_tiles (k : nat) (ps : list paste) (qr_files : list string) :
  Forall (λ f, path_exists f = true → open_raises f = false) qr_files →
  let present := filter (λ f, path_exists f = true) qr_files in
  paste_all path_exists open_raises hi_res_margin hi_res_qr wide
    (Easel (hi_res_margin + (Z.of_nat k mod wide) * hi_res_qr)
           (hi_res_margin + (Z.of_nat k / wide) * hi_res_qr)
           (Z.of_nat k mod wide) ps)
    qr_files
  = Return (Easel (hi_res_margin + (Z.of_nat (k + length present) mod wide) * hi_res_qr)
                  (hi_res_margin + (Z.of_nat (k + length present) / wide) * hi_res_qr)
                  (Z.of_nat (k + length present) mod wide)
                  (ps ++ imap (λ i, tile hi_res_margin hi_res_qr wide (k + i)) present)).
Proof using wide_pos.
  revert k ps. induction qr_files as [|f files IH]; intros k ps Hok present.
  - subst present. simpl. by rewrite Nat.add_0_r, app_nil_r.
  - apply Forall_cons in Hok as [Hf Hok]. subst present.
    rewrite filter_cons. cbn [paste_all]. unfold paste_one at 1.
    destruct (path_exists f) eqn:He; cbn [negb].
    + rewrite Hf by done. destruct (decide (true = true)); [|done].
      cbn [x y items_in_row pasted length imap].
      pose proof (succ_div_mod_Z (Z.of_nat k) wide ltac:(lia) wide_pos) as Hstep.
      replace (k + S (length (filter (λ f, path_exists f = true) files)))
        with (S k + length (filter (λ f, path_exists f = true) files)) by lia.
      assert (Hps : ∀ (l : list string),
                 (ps ++ [Paste f (hi_res_margin + Z.of_nat k mod wide * hi_res_qr)
                                 (hi_res_margin + Z.of_nat k / wide * hi_res_qr)])
                 ++ imap (λ i, tile hi_res_margin hi_res_qr wide (S k + i)) l
                 = ps ++ tile hi_res_margin hi_res_qr wide (k + 0) f
                      :: imap ((λ i, tile hi_res_margin hi_res_qr wide (k + i)) ∘ S) l).
      { intros l. rewrite <- (assoc_L (++)). cbn [app]. unfold tile at 2.
        rewrite Nat.add_0_r. do 2 f_equal. apply imap_ext. intros i g _.
        unfold compose. by rewrite Nat.add_succ_r. }
      rewrite <- Hps. clear Hps.
      replace (Z.of_nat k + 1)%Z with (Z.of_nat (S k)) in Hstep by lia.
      destruct (decide (wide ≤ Z.of_nat k mod wide + 1)%Z) as [Hfull|Hpart];
        destruct Hstep as [Hmod Hdiv]; cbn [bind].
      * rewrite <- (IH (S k)) by done. rewrite Hmod, Hdiv. do 2 f_equal; lia.
      * rewrite <- (IH (S k)) by done. rewrite Hmod, Hdiv. do 2 f_equal; lia.
    + destruct (decide (false = true)); [done|]. cbn [bind]. by apply IH.
Qed.

(** One image that exists and cannot be read ends the loop with the
    exception, whatever was pasted before. *)
Lemma paste_all_raises st (qr_files : list string) f :
  f ∈ qr_files → path_exists f = true → open_raises f = true →
  ∃ e, paste_all path_exists open_raises hi_res_margin hi_res_qr wide st qr_files
       = Raise e.
Proof.
  intros Hin He Hr. revert st.
  induction qr_files as [|g files IH]; intros st; [by apply elem_of_nil in Hin|].
  cbn [paste_all]. unfold paste_one at 1.
  destruct (decide (g = f)) as [->|Hne].
  - rewrite He, Hr. cbn [negb bind]. eauto.
  - apply elem_of_cons in Hin as [?|Hin]; [congruence|].
    destruct (path_exists g); cbn [negb]; [|cbn [bind]; by apply IH].
    destruct (open_raises g); [cbn [bind]; eauto|].
    case_decide; cbn [bind]; by apply IH.
Qed.

End tiles.

End PageFacts.

(** X10. [create_page] with a positive width tiles the files that exist
    in reading order: the image of index [k] among them is pasted at
    column [k mod wide] and row [k / wide] of a grid of [hi_res_qr]
    pixels starting at the margin; files that do not exist take no cell,
    and no row is ever refused for lack of height. *)
Theorem create_page_tiles
    (path_exists open_raises : string → bool) (hi_res_margin hi_res_qr wide : Z)
    (qr_files : list string) (page_num : nat) :
  (0 < wide)%Z →
  Forall (λ f, path_exists f = true → open_raises f = false) qr_files →
  Page.create_page path_exists open_raises hi_res_margin hi_res_qr wide qr_files page_num
  = Py.Return (page_num,
               Some (imap (Page.tile hi_res_margin hi_res_qr wide)
                          (filter (λ f, path_exists f = true) qr_files))).
Proof.
  intros Hw Hok. unfold Page.create_page.
  pose proof (PageFacts.paste_all_tiles path_exists open_raises hi_res_margin
                hi_res_qr wide Hw 0 [] qr_files Hok) as Htiles.
  cbn [Z.of_nat] in Htiles. rewrite Z.mod_0_l, Z.div_0_l in Htiles by lia.
  rewrite Z.mul_0_l, Z.add_0_r in Htiles. cbn zeta in Htiles.
  rewrite Htiles. reflexivity.
Qed.

(** X10, for two columns and a missing second file. *)
Lemma create_page_tiles_witness :
  (0 < 2)%Z
  ∧ Page.create_page (λ f, negb (String.eqb f "b")) (λ _, false) 10 100 2
      ["a"; "b"; "c"; "d"] 1
    = Py.Return (1, Some [Page.Paste "a" 10 10; Page.Paste "c" 110 10;
                          Page.Paste "d" 10 110]).
Proof.
  assert (Hw : (0 < 2)%Z) by reflexivity.
  split; [exact Hw|].
  rewrite (create_page_tiles (λ f, negb (String.eqb f "b")) (λ _, false) 10 100 2
             ["a"; "b"; "c"; "d"] 1 Hw); [reflexivity|].
  repeat constructor.
Defined.

(** X11. A single image that exists but cannot be read costs the whole
    page: [create_page] returns the page number with [None], whatever
    the other images are. *)
Theorem create_page_all_or_nothing
    (path_exists open_raises : string → bool) (hi_res_margin hi_res_qr wide : Z)
    (qr_files : list string) (page_num : nat) (f : string) :
  f ∈ qr_files → path_exists f = true → open_raises f = true →
  Page.create_page path_exists open_raises hi_res_margin hi_res_qr wide qr_files page_num
  = Py.Return (page_num, None).
Proof.
  intros Hin He Hr. unfold Page.create_page.
  destruct (PageFacts.paste_all_raises path_exists open_raises hi_res_margin
              hi_res_qr wide (Page.Easel hi_res_margin hi_res_margin 0 [])
              qr_files f Hin He Hr) as [e ->].
  reflexivity.
Qed.

(** X11, for three images of which the last is unreadable. *)
Lemma create_page_all_or_nothing_witness :
  "c" ∈ ["a"; "b"; "c"]
  ∧ Page.create_page (λ _, true) (λ f, String.eqb f "c") 10 100 2 ["a"; "b"; "c"] 4
    = Py.Return (4, None).
Proof.
  assert (Hin : "c" ∈ ["a"; "b"; "c"]) by (repeat constructor).
  split; [exact Hin|].
  exact (create_page_all_or_nothing (λ _, true) (λ f, String.eqb f "c") 10 100 2
           ["a"; "b"; "c"] 4 "c" Hin eq_refl eq_refl).
Defined.

(** ** The script: prompts and selections *)

Module PromptFacts.
Import Py Script Outcome.

Section ask.
Context {A : Type} (accept : string → option A).

Lemma ask_from_answer rejected s a rest st :
  Forall (rejected_by accept) rejected → accept s = Some a →
  ask_from accept (rejected ++ Line s :: rest) st
  = (Return a, State rest (console st) (written st)).
Proof.
  intros Hrej Ha. induction Hrej as [|k rejected (t & -> & Ht) _ IH]; simpl.
  - by rewrite Ha.
  - by rewrite Ht.
Qed.

Lemma ask_from_eof rejected st :
  Forall (rejected_by accept) rejected →
  ask_from accept rejected st = (Raise "EOFError", State [] (console st) (written st)).
Proof.
  intros Hrej. induction Hrej as [|k rejected (t & -> & Ht) _ IH]; simpl; [done|].
  by rewrite Ht.
Qed.

Lemma ask_from_interrupt rejected rest st :
  Forall (rejected_by accept) rejected →
  ask_from accept (rejected ++ CtrlC :: rest) st
  = (SystemExit (Some 0%Z), State rest (console st ++ [Interrupted]) (written st)).
Proof.
  intros Hrej. induction Hrej as [|k rejected (t & -> & Ht) _ IH]; simpl; [done|].
  by rewrite Ht.
Qed.

(** An answer that a prompt loop returns was typed and accepted. *)
Lemma ask_from_Return pending st a st' :
  ask_from accept pending st = (Return a, st') →
  ∃ s, Line s ∈ pending ∧ accept s = Some a.
Proof.
  induction pending as [|[s|] pending IH]; simpl; [done| |done].
  destruct (accept s) as [a'|] eqn:Hs.
  - intros [= -> _]. exists s. split; [left|done].
  - intros H. destruct (IH H) as (s' & Hin & Hs'). exists s'. split; [by right|done].
Qed.

End ask.

End PromptFacts.

(** X12. A prompt loop skips every line it does not accept and asks
    again: it returns the first accepted answer and leaves the rest of
    the input unread; when the input ends first it raises [EOFError];
    when Ctrl+C comes first it prints the notice and exits with code 0. *)
Theorem prompt_loop {A} (accept : string → option A)
    (rejected : list Script.key) (st : Script.state) :
  Forall (Outcome.rejected_by accept) rejected →
  (∀ s a rest, accept s = Some a →
     Script.keys st = rejected ++ Script.Line s :: rest →
     Script.ask accept st
     = (Py.Return a, Script.State rest (Script.console st) (Script.written st)))
  ∧ (Script.keys st = rejected →
     Script.ask accept st
     = (Py.Raise "EOFError", Script.State [] (Script.console st) (Script.written st)))
  ∧ (∀ rest, Script.keys st = rejected ++ Script.CtrlC :: rest →
     Script.ask accept st
     = (Py.SystemExit (Some 0%Z),
        Script.State rest (Script.console st ++ [Script.Interrupted])
                     (Script.written st))).
Proof.
  intros Hrej. unfold Script.ask. split_and!.
  - intros s a rest Ha ->. by apply PromptFacts.ask_from_answer.
  - intros ->. by apply PromptFacts.ask_from_eof.
  - intros rest ->. by apply PromptFacts.ask_from_interrupt.
Qed.

(** X12, for the width prompt: "0" and "x" are refused, "3" is taken. *)
Lemma prompt_loop_witness :
  let e := Sample.office Sample.seven_rows in
  let accept := λ s, w ← Script.int_of_str e s;
                     if decide (1 ≤ w ≤ 10)%Z then Some (Z.to_nat w) else None in
  Forall (Outcome.rejected_by accept) [Script.Line "0"; Script.Line "x"]
  ∧ Script.ask accept
      (Script.State [Script.Line "0"; Script.Line "x"; Script.Line "3"; Script.Line "2"]
                    [] None)
    = (Py.Return 3, Script.State [Script.Line "2"] [] None).
Proof.
  intros e accept.
  assert (Hrej : Forall (Outcome.rejected_by accept) [Script.Line "0"; Script.Line "x"]).
  { repeat constructor; eexists; (split; [reflexivity|reflexivity]). }
  split; [exact Hrej|].
  destruct (prompt_loop accept _
              (Script.State [Script.Line "0"; Script.Line "x"; Script.Line "3";
                             Script.Line "2"] [] None) Hrej) as (H & _).
  exact (H "3" 3 [Script.Line "2"] eq_refl eq_refl).
Defined.

(** X13. The grid width that reaches the layout lies between 1 and 10,
    whether it was given on the command line (where the parser admits
    only these values) or typed at the prompt. *)
Theorem width_in_range
    (a : Script.arguments) (e : Script.env) (st st' : Script.state) (w : nat) :
  (∀ w0, Script.wide a = Some w0 → 1 ≤ w0 ≤ 10) →
  Script.select_wide a e st = (Py.Return w, st') →
  1 ≤ w ≤ 10.
Proof.
  intros Hargs. unfold Script.select_wide.
  destruct (Script.wide a) as [w0|] eqn:Hw.
  - intros [= -> _]. by apply Hargs.
  - intros Hask. apply PromptFacts.ask_from_Return in Hask as (s & _ & Hs).
    destruct (Script.int_of_str e s) as [z|]; [|done]. simpl in Hs.
    case_decide; [|done]. injection Hs as <-. lia.
Qed.

(** X13, for the answer "3" at the prompt. *)
Lemma width_in_range_witness :
  let a := Script.Arguments None None false None None false in
  let e := Sample.office Sample.seven_rows in
  (∀ w0, Script.wide a = Some w0 → 1 ≤ w0 ≤ 10)
  ∧ Script.select_wide a e (Script.State [Script.Line "3"] [] None)
    = (Py.Return 3, Script.State [] [] None)
  ∧ 1 ≤ 3 ≤ 10.
Proof.
  intros a e.
  assert (Hargs : ∀ w0, Script.wide a = Some w0 → 1 ≤ w0 ≤ 10) by (intros w0 [=]).
  assert (Hsel : Script.select_wide a e (Script.State [Script.Line "3"] [] None)
                 = (Py.Return 3, Script.State [] [] None)) by reflexivity.
  split; [exact Hargs|]. split; [exact Hsel|].
  exact (width_in_range a e _ _ 3 Hargs Hsel).
Defined.

(** X14. The column that is scanned is one of the columns of the sheet:
    a value between 1 and [max_column], from the command line or from
    the prompt. *)
Theorem column_in_range
    (a : Script.arguments) (e : Script.env) (ws : Ingest.worksheet)
    (has_header : bool) (st st' : Script.state) (c : nat) :
  Script.select_column a e ws has_header st = (Py.Return c, st') →
  1 ≤ c ≤ Ingest.max_column ws.
Proof.
  unfold Script.select_column.
  destruct (Script.truthy_int (Script.column a)).
  - case_decide as Hc; [|done]. intros [= <- _]. lia.
  - destruct (_ && _); [done|].
    intros Hask. apply PromptFacts.ask_from_Return in Hask as (s & _ & Hs).
    destruct (Script.int_of_str e s) as [z|]; [|done]. simpl in Hs.
    case_decide; [|done]. injection Hs as <-. lia.
Qed.

(** X14, for [-c 1] on a sheet of one column. *)
Lemma column_in_range_witness :
  let a := Sample.cli None Script.docx in
  let e := Sample.office Sample.seven_rows in
  let ws := Ingest.column_sheet Sample.seven_rows in
  Script.select_column a e ws false (Script.State [] [] None)
  = (Py.Return 1, Script.State [] [] None)
  ∧ 1 ≤ 1 ≤ Ingest.max_column ws.
Proof.
  intros a e ws.
  assert (Hsel : Script.select_column a e ws false (Script.State [] [] None)
                 = (Py.Return 1, Script.State [] [] None)) by reflexivity.
  split; [exact Hsel|].
  exact (column_in_range a e ws false _ _ 1 Hsel).
Defined.

(** X15. The file that is opened always has a name ending in [.xlsx]:
    a file named on the command line must exist, and a file found in the
    directory is listed there and is not an editor lock file [~$...]. *)
Theorem selected_file_is_xlsx
    (a : Script.arguments) (e : Script.env) (st st' : Script.state) (f : string) :
  Script.select_file a e st = (Py.Return f, st') →
  Py.endswith f ".xlsx" = true
  ∧ (if Script.truthy_str (Script.input a)
     then Script.input a = Some f ∧ Script.path_exists e f = true
     else f ∈ Script.listdir e ∧ Py.startswith f "~$" = false).
Proof.
  unfold Script.select_file.
  destruct (Script.truthy_str (Script.input a)) eqn:Hin.
  - destruct (Script.input a) as [f0|]; [|done]. unfold default. simpl.
    destruct (Script.path_exists e f0) eqn:He; [|done].
    destruct (Py.endswith f0 ".xlsx") eqn:Hx; [|done].
    simpl. by intros [= <- _].
  - set (xlsx_files := filter _ (Script.listdir e)).
    assert (Hfiles : ∀ g, g ∈ xlsx_files →
              Py.endswith g ".xlsx" = true
              ∧ g ∈ Script.listdir e ∧ Py.startswith g "~$" = false).
    { intros g Hg. apply list_elem_of_filter in Hg as [Hp Hg].
      apply andb_true_iff in Hp as [Hx Hl]. apply negb_true_iff in Hl. done. }
    destruct xlsx_files as [|f1 [|f2 files]] eqn:Hlist.
    + done.
    + intros [= <- _]. apply Hfiles. left.
    + intros Hask. apply PromptFacts.ask_from_Return in Hask as (s & _ & Hs).
      destruct (Script.int_of_str e s) as [z|]; [|done]. simpl in Hs.
      case_decide; [|done]. apply Hfiles. by eapply list_elem_of_lookup_2.
Qed.

(** X15, for the only spreadsheet of the sample directory. *)
Lemma selected_file_is_xlsx_witness :
  let a := Script.Arguments None None false None None false in
  let e := Sample.office Sample.seven_rows in
  Script.select_file a e (Script.State [] [] None)
  = (Py.Return "data.xlsx", Script.State [] [] None)
  ∧ Py.endswith "data.xlsx" ".xlsx" = true.
Proof.
  intros a e.
  assert (Hsel : Script.select_file a e (Script.State [] [] None)
                 = (Py.Return "data.xlsx", Script.State [] [] None)) by reflexivity.
  split; [exact Hsel|].
  destruct (selected_file_is_xlsx a e _ _ _ Hsel) as [H _]. exact H.
Defined.

(** ** The script: exit status and output *)

Module RunFacts.
Import Py Script Outcome.









Lemma consistent_keys st pending :
  consistent st → consistent (State pending (console st) (written st)).
Proof. done. Qed.









Section stages.
Variable a : arguments.
Variable e : env.

















End stages.

End RunFacts.







(** ** The document of a run *)

Module DocxMore.
Import Docx.

(** The document is a sequence of pairs: a table and an empty paragraph. *)
Lemma assemble_pairs wide files :
  (assemble wide files).2
  = concat ((λ r, [Table wide (enumerate r); Paragraph])
            <$> table_rows (assemble wide files).2).
Proof.
  induction files as [|f files IH] using rev_ind; [done|].
  rewrite DocxFacts.assemble_snoc. destruct (assemble wide files) as [cur doc].
  unfold loop_body. simpl in *. case_decide; simpl; [|done].
  rewrite DocxFacts.table_rows_app, fmap_app, concat_app, <- IH. simpl.
  by rewrite DocxFacts.snd_enumerate.
Qed.

(** Number of tables and images in the document. *)
Lemma document_rows wide files :
  0 < wide →
  length (table_rows (document wide files)) = length files / wide
  ∧ images (document wide files)
    = take (length files - length files mod wide) files.
Proof.
  intros Hw. pose proof (DocxFacts.assemble_inv wide files Hw) as Hinv.
  unfold document, images. destruct (assemble wide files) as [cur doc].
  simpl in *. destruct Hinv as (Hcat & Hfull & Hlen).
  assert (HN : length files = wide * length (table_rows doc) + length cur).
  { rewrite <- Hcat at 1.
    by rewrite length_app, (DocxFacts.concat_length_full _ wide). }
  destruct (CountFacts.div_mod_of_split _ _ _ _ HN Hlen) as [Hq Hr].
  split; [done|].
  assert (Hpre : length (concat (table_rows doc))
                 = length files - length files mod wide).
  { rewrite (DocxFacts.concat_length_full _ wide) by done. lia. }
  rewrite <- Hpre, <- Hcat. by rewrite take_app_length.
Qed.

End DocxMore.

(** X20. The DOCX document consists of nothing but pairs of a table of
    [wide] columns and the empty paragraph that follows it, one pair for
    each row of images, for every width. *)
Theorem docx_table_then_paragraph (wide : nat) (all_temp_files : list string) :
  let doc := Docx.document wide all_temp_files in
  doc = concat ((λ r, [Docx.Table wide (Docx.enumerate r); Docx.Paragraph])
                <$> Docx.table_rows doc).
Proof. apply DocxMore.assemble_pairs. Qed.

(** X21. With fewer images than columns the DOCX document stays empty:
    not a single image is placed. *)
Theorem docx_too_few_images (wide : nat) (all_temp_files : list string) :
  length all_temp_files < wide →
  Docx.document wide all_temp_files = [].
Proof.
  intros Hfew.
  destruct (DocxMore.document_rows wide all_temp_files ltac:(lia)) as [Hrows _].
  rewrite Nat.div_small in Hrows by done.
  apply nil_length_inv in Hrows.
  unfold Docx.document in *. rewrite DocxMore.assemble_pairs. by rewrite Hrows.
Qed.

(** X21, for two images and three columns. *)
Lemma docx_too_few_images_witness :
  length ["a"; "b"] < 3 ∧ Docx.document 3 ["a"; "b"] = [].
Proof.
  assert (Hfew : length ["a"; "b"] < 3) by (repeat constructor).
  split; [exact Hfew|]. exact (docx_too_few_images 3 ["a"; "b"] Hfew).
Defined.





(** ** Clearing the output directory *)

(** X24. An old output entry whose deletion fails [failures] times costs
    exactly that many presses of Enter: each failure prints the error and
    reads one line, whatever it says, and after the last one the run goes
    on with the rest of the input. *)
Theorem unlink_retry_reads_one_line_per_failure
    (answers : list string) (rest : list Script.key) (st : Script.state) :
  Script.keys st = (Script.Line <$> answers) ++ rest →
  Script.unlink_retry (length answers) st
  = (Py.Return tt,
     Script.State rest
       (Script.console st ++ replicate (length answers) (Script.Error "Cannot delete"))
       (Script.written st)).
Proof.
  revert st. induction answers as [|s answers IH]; intros [ks cs wr] Hkeys;
    simpl in *.
  - subst ks. by rewrite app_nil_r.
  - subst ks. unfold mbind, Script.M_bind, Script.bindM, Script.print,
      Script.console_input. simpl.
    rewrite IH by done. simpl. by rewrite <- (assoc_L (++)).
Qed.

(** X24, for an entry that is freed at the third attempt. *)
Lemma unlink_retry_reads_one_line_per_failure_witness :
  Script.unlink_retry 2
    (Script.State [Script.Line "x"; Script.Line "y"; Script.Line "3"] [] None)
  = (Py.Return tt,
     Script.State [Script.Line "3"]
       [Script.Error "Cannot delete"; Script.Error "Cannot delete"] None).
Proof.
  exact (unlink_retry_reads_one_line_per_failure ["x"; "y"] [Script.Line "3"]
           (Script.State [Script.Line "x"; Script.Line "y"; Script.Line "3"] [] None)
           eq_refl).
Defined.
